(** * drawing-guess-az: the game client (src/App.tsx) and its types

    A shallow embedding of the React component [App] of src/App.tsx and of
    the type declarations it imports (GameState, Player, ChatMessage,
    DrawData).  The component is a function of the values held by its
    [useState] hooks; its handlers are closures over those values which
    queue state updates, emit messages on the socket and call methods of the
    canvas reference.  Here a render is a function of an [AppState], and a
    handler is a transformer of a [World]: the hook values, the messages
    emitted so far and the canvas behind [canvasRef]. *)

From Stdlib Require Import ZArith NArith List Bool String Ascii Lia.
Import ListNotations.
Local Open Scope Z_scope.

(** ** JavaScript values used by the component *)

Module JS.

(** A JavaScript string is a sequence of UTF-16 code units. *)
Definition code_unit := N.
Definition jsstring := list code_unit.

(** An ASCII literal of the source as a [jsstring]. *)
Definition lit (s : string) : jsstring :=
  map N_of_ascii (list_ascii_of_string s).

Fixpoint str_eqb (s t : jsstring) : bool :=
  match s, t with
  | [], [] => true
  | c :: s', d :: t' => N.eqb c d && str_eqb s' t'
  | _, _ => false
  end.

(** WhiteSpace and LineTerminator code points of ECMAScript, the ones
    [String.prototype.trim] strips: TAB, LF, VT, FF, CR, SP, NBSP,
    U+1680, U+2000..U+200A, U+2028, U+2029, U+202F, U+205F, U+3000 and
    U+FEFF.  All of them are single code units. *)
Definition isWhiteSpace (c : code_unit) : bool :=
  ((9 <=? c) && (c <=? 13) || (c =? 32) || (c =? 160) || (c =? 5760)
   || (8192 <=? c) && (c <=? 8202) || (c =? 8232) || (c =? 8233)
   || (c =? 8239) || (c =? 8287) || (c =? 12288) || (c =? 65279))%N.

Fixpoint trimStart (s : jsstring) : jsstring :=
  match s with
  | [] => []
  | c :: s' => if isWhiteSpace c then trimStart s' else s
  end.

Definition trimEnd (s : jsstring) : jsstring := rev (trimStart (rev s)).

(** [s.trim()] *)
Definition trim (s : jsstring) : jsstring := trimEnd (trimStart s).

(** Truthiness of a string: every string but the empty one. *)
Definition truthy (s : jsstring) : bool :=
  match s with [] => false | _ :: _ => true end.

(** The values that meet in the component's [===] tests: a string,
    [undefined] (what [socket?.id] and [find] give when there is nothing)
    and [null] (no drawer). *)
Inductive value :=
| VUndefined
| VNull
| VString (s : jsstring).

(** [a === b] on those values. *)
Definition strict_eq (a b : value) : bool :=
  match a, b with
  | VUndefined, VUndefined => true
  | VNull, VNull => true
  | VString s, VString t => str_eqb s t
  | _, _ => false
  end.

(** A [string | null] as a value. *)
Definition of_nullable (o : option jsstring) : value :=
  match o with Some s => VString s | None => VNull end.

(** A [string | undefined] as a value. *)
Definition of_optional (o : option jsstring) : value :=
  match o with Some s => VString s | None => VUndefined end.

(** [`${v}`] for a [string | undefined]. *)
Definition template (o : option jsstring) : jsstring :=
  match o with Some s => s | None => lit "undefined" end.

(** [xs.find(p)] *)
Fixpoint find {A : Type} (p : A -> bool) (xs : list A) : option A :=
  match xs with
  | [] => None
  | x :: xs' => if p x then Some x else find p xs'
  end.

End JS.

Import JS.

(** ** The declared types *)

(** [enum GameState] *)
Inductive GameState := Lobby | Waiting | Game | RoundEnd.

(** The component stores and forwards numbers (scores, seconds,
    coordinates, widths) and never computes with them beyond [|| 0] and
    [w + 4]; they are integers here. *)
Definition number := Z.

Module Player.
Record t := mk { id : jsstring; username : jsstring; score : number }.
End Player.

Module ChatMessage.
Record t := mk {
  username : jsstring;
  message : jsstring;
  isSystemMessage : option bool;   (* optional field *)
  isCorrectGuess : option bool     (* optional field *)
}.
End ChatMessage.

Record Point := { x : number; y : number }.

Module DrawData.
Record t := mk {
  from : Point;
  to : Point;
  color : jsstring;
  lineWidth : number
}.
End DrawData.

(** The payload of [roundEnd] and the type of the [roundResult] hook. *)
Record RoundResult := { winner : option Player.t; word : jsstring }.

(** The payload of [newRound], with the types of the hooks it is stored in. *)
Record NewRound := {
  nr_drawerId : option jsstring;   (* string | null *)
  nr_word : jsstring;
  nr_time : number
}.

(** ** The protocol *)

(** What the client emits. *)
Inductive ClientMsg :=
| JoinGame (username : jsstring)
| Drawing (data : DrawData.t)
| ClearCanvas
| ChatMsg (message : jsstring)
| ReadyForNextRound.

(** What the client has a handler for ([newSocket.on]). *)
Inductive ServerEvent :=
| EvConnect
| EvGameState (state : GameState)
| EvUpdatePlayers (players : list Player.t)
| EvChatMessage (msg : ChatMessage.t)
| EvNewRound (p : NewRound)
| EvTimer (time : number)
| EvDrawing (data : DrawData.t)
| EvClearCanvas
| EvRoundEnd (result : RoundResult).

(** ** State *)

(** The socket object as a render sees it: its [id] is [undefined] until the
    transport has connected. *)
Record Socket := { id : option jsstring }.

(** The values of the [useState] hooks of [App]. *)
Record AppState := {
  socket : option Socket;               (* Socket | null *)
  gameState : GameState;
  players : list Player.t;
  messages : list ChatMessage.t;
  currentWord : jsstring;
  timeLeft : number;
  currentDrawerId : option jsstring;    (* string | null *)
  username : jsstring;
  roundResult : option RoundResult;
  drawColor : jsstring;
  lineWidth : number
}.

(** The hooks' initial values. *)
Definition initial : AppState := {|
  socket := None;
  gameState := Lobby;
  players := [];
  messages := [];
  currentWord := [];
  timeLeft := 0;
  currentDrawerId := None;
  username := [];
  roundResult := None;
  drawColor := lit "#111827";
  lineWidth := 4
|}.

(** The Canvas component is not part of the sources at hand; the object
    behind [canvasRef.current] is represented by the method calls it has
    received. *)
Inductive CanvasCall :=
| CanvasClear
| CanvasDrawFromServer (data : DrawData.t).

Record World := {
  app : AppState;
  sent : list ClientMsg;                 (* emitted on the socket, oldest first *)
  canvasRef : option (list CanvasCall)   (* [None]: no canvas mounted *)
}.

(** ** Effects of a handler *)

(** A handler runs to completion on the world it finds. *)
Definition Cmd := World -> World.

Definition skip : Cmd := fun w => w.

Definition seq (a b : Cmd) : Cmd := fun w => b (a w).

Notation "a ;; b" := (seq a b) (at level 61, right associativity).

(** A state update queued by a hook's setter. *)
Definition update (f : AppState -> AppState) : Cmd := fun w =>
  {| app := f (app w); sent := sent w; canvasRef := canvasRef w |}.

Definition setSocket (v : option Socket) : Cmd := update (fun s =>
  {| socket := v; gameState := gameState s; players := players s;
     messages := messages s; currentWord := currentWord s;
     timeLeft := timeLeft s; currentDrawerId := currentDrawerId s;
     username := username s; roundResult := roundResult s;
     drawColor := drawColor s; lineWidth := lineWidth s |}).

Definition setGameState (v : GameState) : Cmd := update (fun s =>
  {| socket := socket s; gameState := v; players := players s;
     messages := messages s; currentWord := currentWord s;
     timeLeft := timeLeft s; currentDrawerId := currentDrawerId s;
     username := username s; roundResult := roundResult s;
     drawColor := drawColor s; lineWidth := lineWidth s |}).

Definition setPlayers (v : list Player.t) : Cmd := update (fun s =>
  {| socket := socket s; gameState := gameState s; players := v;
     messages := messages s; currentWord := currentWord s;
     timeLeft := timeLeft s; currentDrawerId := currentDrawerId s;
     username := username s; roundResult := roundResult s;
     drawColor := drawColor s; lineWidth := lineWidth s |}).

(** [setMessages(prev => f(prev))]; [setMessages(v)] is the constant [f]. *)
Definition setMessages (f : list ChatMessage.t -> list ChatMessage.t) : Cmd :=
  update (fun s =>
  {| socket := socket s; gameState := gameState s; players := players s;
     messages := f (messages s); currentWord := currentWord s;
     timeLeft := timeLeft s; currentDrawerId := currentDrawerId s;
     username := username s; roundResult := roundResult s;
     drawColor := drawColor s; lineWidth := lineWidth s |}).

Definition setCurrentWord (v : jsstring) : Cmd := update (fun s =>
  {| socket := socket s; gameState := gameState s; players := players s;
     messages := messages s; currentWord := v;
     timeLeft := timeLeft s; currentDrawerId := currentDrawerId s;
     username := username s; roundResult := roundResult s;
     drawColor := drawColor s; lineWidth := lineWidth s |}).

Definition setTimeLeft (v : number) : Cmd := update (fun s =>
  {| socket := socket s; gameState := gameState s; players := players s;
     messages := messages s; currentWord := currentWord s;
     timeLeft := v; currentDrawerId := currentDrawerId s;
     username := username s; roundResult := roundResult s;
     drawColor := drawColor s; lineWidth := lineWidth s |}).

Definition setCurrentDrawerId (v : option jsstring) : Cmd := update (fun s =>
  {| socket := socket s; gameState := gameState s; players := players s;
     messages := messages s; currentWord := currentWord s;
     timeLeft := timeLeft s; currentDrawerId := v;
     username := username s; roundResult := roundResult s;
     drawColor := drawColor s; lineWidth := lineWidth s |}).

Definition setUsername (v : jsstring) : Cmd := update (fun s =>
  {| socket := socket s; gameState := gameState s; players := players s;
     messages := messages s; currentWord := currentWord s;
     timeLeft := timeLeft s; currentDrawerId := currentDrawerId s;
     username := v; roundResult := roundResult s;
     drawColor := drawColor s; lineWidth := lineWidth s |}).

Definition setRoundResult (v : option RoundResult) : Cmd := update (fun s =>
  {| socket := socket s; gameState := gameState s; players := players s;
     messages := messages s; currentWord := currentWord s;
     timeLeft := timeLeft s; currentDrawerId := currentDrawerId s;
     username := username s; roundResult := v;
     drawColor := drawColor s; lineWidth := lineWidth s |}).

Definition setDrawColor (v : jsstring) : Cmd := update (fun s =>
  {| socket := socket s; gameState := gameState s; players := players s;
     messages := messages s; currentWord := currentWord s;
     timeLeft := timeLeft s; currentDrawerId := currentDrawerId s;
     username := username s; roundResult := roundResult s;
     drawColor := v; lineWidth := lineWidth s |}).

Definition setLineWidth (v : number) : Cmd := update (fun s =>
  {| socket := socket s; gameState := gameState s; players := players s;
     messages := messages s; currentWord := currentWord s;
     timeLeft := timeLeft s; currentDrawerId := currentDrawerId s;
     username := username s; roundResult := roundResult s;
     drawColor := drawColor s; lineWidth := v |}).

(** [socket.emit(m)] on a socket that exists. *)
Definition emit (m : ClientMsg) : Cmd := fun w =>
  {| app := app w; sent := sent w ++ [m]; canvasRef := canvasRef w |}.

(** [socket?.emit(m)] *)
Definition emit_opt (s : option Socket) (m : ClientMsg) : Cmd :=
  match s with Some _ => emit m | None => skip end.

(** [canvasRef.current?.clear()] and [canvasRef.current?.drawFromServer(d)]:
    the call reaches the canvas when one is mounted. *)
Definition canvas (c : CanvasCall) : Cmd := fun w =>
  match canvasRef w with
  | Some calls =>
      {| app := app w; sent := sent w; canvasRef := Some (calls ++ [c]) |}
  | None => w
  end.

(** ** What a render shows *)

Record PlayerRow := {
  row_pencil : bool;             (* the pencil icon: [player.id === drawerId] *)
  row_username : jsstring;
  row_score : number
}.

Record Tools := { tools_color : jsstring; tools_width : number }.

Inductive View :=
| LobbyView (usernameInput : jsstring)
| WaitingView
| RoundEndView
    (winnerName : option jsstring)   (* [None]: the time-is-up heading *)
    (shownWord : option jsstring)    (* [roundResult?.word] *)
    (totalScore : option number)
| GameView
    (playerList : list PlayerRow)
    (time : number)
    (shownWord : jsstring)
    (ownScore : number)
    (isDrawingEnabled : bool)
    (tools : option Tools)           (* DrawingTools, for the drawer *)
    (chat : list ChatMessage.t).

(** The word a view puts on screen, if it shows one. *)
Definition word_on_screen (v : View) : option jsstring :=
  match v with
  | RoundEndView _ w _ => w
  | GameView _ _ w _ _ _ _ => Some w
  | _ => None
  end.

(** " rəsm çəkir...": the text after the drawer's name in the round's
    opening message (U+0259 is 601, U+00E7 is 231). *)
Definition is_drawing_suffix : jsstring :=
  lit " r" ++ [601%N] ++ lit "sm " ++ [231%N; 601%N] ++ lit "kir...".

(** ** The component *)

Section App.

(** The hook values of the render that created the closures below. *)
Variable r : AppState.

(** [socket?.id] *)
Definition socket_id : value :=
  match socket r with
  | None => VUndefined
  | Some s => of_optional (id s)
  end.

(** [const isDrawer = socket?.id === currentDrawerId] *)
Definition isDrawer : bool :=
  strict_eq socket_id (of_nullable (currentDrawerId r)).

(** [players.find(p => p.id === k)?.username] *)
Definition username_of (k : value) : option jsstring :=
  match find (fun p => strict_eq (VString (Player.id p)) k) (players r) with
  | Some p => Some (Player.username p)
  | None => None
  end.

(** [players.find(p => p.id === socket?.id)?.score] *)
Definition own_score : option number :=
  match find (fun p => strict_eq (VString (Player.id p)) socket_id) (players r) with
  | Some p => Some (Player.score p)
  | None => None
  end.

(** The handlers registered on the socket by the mount effect.  They are
    closures of the render that ran the effect: [players] in the
    [newRound] handler is that render's list. *)
Definition on (e : ServerEvent) : Cmd :=
  match e with
  | EvConnect => skip                (* logs the id *)
  | EvGameState state => setGameState state
  | EvUpdatePlayers ps => setPlayers ps
  | EvChatMessage msg => setMessages (fun prev => prev ++ [msg])
  | EvNewRound p =>
      setGameState Game ;;
      setCurrentDrawerId (nr_drawerId p) ;;
      setCurrentWord (nr_word p) ;;
      setTimeLeft (nr_time p) ;;
      setMessages (fun _ =>
        [ ChatMessage.mk (lit "System")
            (template (username_of (of_nullable (nr_drawerId p)))
               ++ is_drawing_suffix)
            (Some true) None ]) ;;
      canvas CanvasClear
  | EvTimer time => setTimeLeft time
  | EvDrawing data => canvas (CanvasDrawFromServer data)
  | EvClearCanvas => canvas CanvasClear
  | EvRoundEnd result =>
      setGameState RoundEnd ;;
      setRoundResult (Some result)
  end.

(** [if (username.trim() && socket)] *)
Definition handleJoinGame : Cmd :=
  match truthy (trim (username r)), socket r with
  | true, Some _ =>
      emit (JoinGame (trim (username r))) ;;
      setGameState Waiting
  | _, _ => skip
  end.

(** [if (socket && isDrawer)] *)
Definition handleDraw (data : DrawData.t) : Cmd :=
  match socket r, isDrawer with
  | Some _, true => emit (Drawing data)
  | _, _ => skip
  end.

Definition handleSendMessage (message : jsstring) : Cmd :=
  emit_opt (socket r) (ChatMsg message).

Definition handleClearCanvas : Cmd :=
  if isDrawer
  then canvas CanvasClear ;; emit_opt (socket r) ClearCanvas
  else skip.

Definition handleReadyForNext : Cmd :=
  emit_opt (socket r) ReadyForNextRound ;;
  setRoundResult None ;;
  setGameState Waiting.

(** [score || 0] *)
Definition or_zero (o : option number) : number :=
  match o with
  | Some n => if n =? 0 then 0 else n
  | None => 0
  end.

Definition renderContent : View :=
  match gameState r with
  | Lobby => LobbyView (username r)
  | Waiting => WaitingView
  | RoundEnd =>
      RoundEndView
        (match roundResult r with
         | Some res =>
             match winner res with
             | Some p => Some (Player.username p)
             | None => None
             end
         | None => None
         end)
        (match roundResult r with
         | Some res => Some (word res)
         | None => None
         end)
        own_score
  | Game =>
      GameView
        (map (fun p =>
                {| row_pencil :=
                     strict_eq (VString (Player.id p))
                               (of_nullable (currentDrawerId r));
                   row_username := Player.username p;
                   row_score := Player.score p |})
             (players r))
        (timeLeft r)
        (currentWord r)
        (or_zero own_score)
        isDrawer
        (if isDrawer
         then Some {| tools_color := drawColor r; tools_width := lineWidth r |}
         else None)
        (messages r)
  end.

End App.

(** The mount effect runs once, after the first render: its handlers close
    over the initial hook values. *)
Definition socket_on : ServerEvent -> Cmd := on initial.

(** A handler of the current render, run on the world that render shows. *)
Definition act (h : AppState -> Cmd) : Cmd := fun w => h (app w) w.

(** The events of a list, handled in order of arrival.  These are the
    handlers alone: the renders in between, which mount the Canvas on
    entering the Game phase and unmount it on leaving (the Canvas is part of
    the Game screen only), are not part of it, so [canvasRef] is followed
    across events that keep the phase and not beyond. *)
Definition receive (es : list ServerEvent) : Cmd := fun w =>
  fold_left (fun w e => socket_on e w) es w.

(** [ChatArea]'s own send handler: the trimmed input goes to
    [onSendMessage] when it is not empty. *)
Definition ChatArea_handleSend (input : jsstring) (r : AppState) : Cmd :=
  if truthy (trim input) then handleSendMessage r (trim input) else skip.

(** ** Runs of the client *)

(** What can happen to a mounted client: a render finds a new value in the
    socket hook, an event arrives, or the user operates a control.  Each
    step's handlers are those of a render of the hook values the step
    finds.  [SocketIs s] is [setSocket]: the render that follows sees the
    socket object as [s].  The [id] of the socket object changing on its
    own (the transport connecting) sets no hook and is no step: the
    handlers keep the [isDrawer] of their render until a later render reads
    the new id, and a run has a [SocketIs] step where that render is.  As
    for [receive], mounting and unmounting the Canvas is not part of a
    run. *)
Inductive Action :=
| SocketIs (s : option Socket)
| Receive (e : ServerEvent)
| TypeUsername (s : jsstring)
| ClickJoin
| DrawStroke (d : DrawData.t)
| SendChat (input : jsstring)
| ClickClear
| ClickReady
| PickColor (c : jsstring)
| PickWidth (n : number).

Definition perform (a : Action) : Cmd :=
  match a with
  | SocketIs s => setSocket s
  | Receive e => socket_on e
  | TypeUsername s => setUsername s
  | ClickJoin => act handleJoinGame
  | DrawStroke d => act (fun r => handleDraw r d)
  | SendChat input => act (ChatArea_handleSend input)
  | ClickClear => act handleClearCanvas
  | ClickReady => act handleReadyForNext
  | PickColor c => setDrawColor c
  | PickWidth n => setLineWidth n
  end.

Fixpoint run (l : list Action) (w : World) : World :=
  match l with
  | [] => w
  | a :: l' => run l' (perform a w)
  end.

(** ** Notions used in the statements *)

(** An event whose handler is expected to clear the canvas. *)
Definition clears (e : ServerEvent) : Prop :=
  e = EvClearCanvas \/ exists p, e = EvNewRound p.

(** The chat entries among received events, in order of arrival. *)
Fixpoint chats (es : list ServerEvent) : list ChatMessage.t :=
  match es with
  | [] => []
  | EvChatMessage m :: es' => m :: chats es'
  | _ :: es' => chats es'
  end.

Definition is_newRound (e : ServerEvent) : bool :=
  match e with EvNewRound _ => true | _ => false end.

(** The chat column of a view. *)
Definition chat_on_screen (v : View) : list ChatMessage.t :=
  match v with
  | GameView _ _ _ _ _ _ chat => chat
  | _ => []
  end.

(** The message that opens a round, as the handler of a render [r] builds
    it for a drawer id. *)
Definition opening_message (r : AppState) (drawerId : option jsstring) :
    ChatMessage.t :=
  ChatMessage.mk (lit "System")
    (template (username_of r (of_nullable drawerId)) ++ is_drawing_suffix)
    (Some true) None.

(** The clients of one room, side by side.  A client has signalled that it
    is ready when it has emitted [readyForNextRound]. *)
Definition Room := list World.

Definition is_ready_signal (m : ClientMsg) : bool :=
  match m with ReadyForNextRound => true | _ => false end.

Definition has_signalled_ready (w : World) : bool :=
  existsb is_ready_signal (sent w).

(** Client [i] of the room runs [c]; the others stand still. *)
Fixpoint client_does (i : nat) (c : Cmd) (room : Room) : Room :=
  match room, i with
  | [], _ => []
  | w :: rest, O => c w :: rest
  | w :: rest, S j => w :: client_does j c rest
  end.

(** The claim, read on the client: pressing the button moves a client from
    RoundEnd to Waiting only when every client of the room has signalled
    (or the client's player list is empty). *)
Definition waiting_only_when_all_ready : Prop :=
  forall (room : Room) (i : nat) (w w' : World),
    nth_error room i = Some w ->
    gameState (app w) = RoundEnd ->
    nth_error (client_does i (act handleReadyForNext) room) i = Some w' ->
    gameState (app w') = Waiting ->
    players (app w) = [] \/
    forallb has_signalled_ready
      (client_does i (act handleReadyForNext) room) = true.

(** The claim, read on the client: after a [newRound] event, a client that
    is not the drawer holds and shows an empty word. *)
Definition word_withheld_from_guessers : Prop :=
  forall (w : World) (p : NewRound),
    isDrawer (app (socket_on (EvNewRound p) w)) = false ->
    currentWord (app (socket_on (EvNewRound p) w)) = []
    /\ word_on_screen (renderContent (app (socket_on (EvNewRound p) w)))
       = Some [].

(** ** Sample data *)

Module Sample.

Definition alice : Player.t := Player.mk (lit "A") (lit "alice") 0.
Definition bob : Player.t := Player.mk (lit "B") (lit "bob") 100.

Definition stroke : DrawData.t :=
  DrawData.mk {| x := 10; y := 20 |} {| x := 30; y := 45 |} (lit "#ef4444") 8.

(** Alice's client with the given phase, drawer and canvas. *)
Definition client (me : jsstring) (g : GameState) (drawer : option jsstring)
    (cv : option (list CanvasCall)) : World :=
  {| app :=
       {| socket := Some {| id := Some me |};
          gameState := g;
          players := [alice; bob];
          messages := [ChatMessage.mk (lit "bob") (lit "cat?") None None];
          currentWord := [];
          timeLeft := 30;
          currentDrawerId := drawer;
          username := lit "alice";
          roundResult := None;
          drawColor := lit "#111827";
          lineWidth := 4 |};
     sent := [];
     canvasRef := cv |}.

(** A connected client in the lobby with [name] typed in. *)
Definition lobby (name : jsstring) : World :=
  {| app :=
       {| socket := Some {| id := Some (lit "A") |};
          gameState := Lobby;
          players := [];
          messages := [];
          currentWord := [];
          timeLeft := 0;
          currentDrawerId := None;
          username := name;
          roundResult := None;
          drawColor := lit "#111827";
          lineWidth := 4 |};
     sent := [];
     canvasRef := None |}.

End Sample.

(** ** The helper components *)

(** [PlayerList]: one row per player, in the order of the list, with the
    pencil icon where [player.id === drawerId]. *)
Definition PlayerList (players : list Player.t) (drawerId : option jsstring) :
    list PlayerRow :=
  map (fun player =>
         {| row_pencil :=
              strict_eq (VString (Player.id player)) (of_nullable drawerId);
            row_username := Player.username player;
            row_score := Player.score player |})
      players.

(** Truthiness of an optional boolean field: [undefined] is falsy. *)
Definition flag (o : option bool) : bool :=
  match o with Some b => b | None => false end.

(** The three looks of a chat bubble. *)
Inductive Bubble := SystemBubble | CorrectGuessBubble | OrdinaryBubble.

Record ChatLine := {
  line_centered : bool;            (* [items-center] rather than [items-start] *)
  line_bubble : Bubble;
  line_name : option jsstring;     (* the sender's name above the text *)
  line_text : jsstring
}.

(** One entry of [ChatArea]'s [messages.map]. *)
Definition ChatArea_line (msg : ChatMessage.t) : ChatLine :=
  {| line_centered :=
       flag (ChatMessage.isSystemMessage msg)
       || flag (ChatMessage.isCorrectGuess msg);
     line_bubble :=
       if flag (ChatMessage.isSystemMessage msg) then SystemBubble
       else if flag (ChatMessage.isCorrectGuess msg) then CorrectGuessBubble
       else OrdinaryBubble;
     line_name :=
       if negb (flag (ChatMessage.isSystemMessage msg))
          && negb (flag (ChatMessage.isCorrectGuess msg))
       then Some (ChatMessage.username msg)
       else None;
     line_text := ChatMessage.message msg |}.

Definition ChatArea_lines (messages : list ChatMessage.t) : list ChatLine :=
  map ChatArea_line messages.

(** [ChatArea]'s [handleSend] with its own [input] hook: the new input and
    what the call of [onSendMessage] does. *)
Definition ChatArea_send (input : jsstring) (onSendMessage : jsstring -> Cmd) :
    jsstring * Cmd :=
  if truthy (trim input)
  then ([], onSendMessage (trim input))
  else (input, skip).

(** [DrawingTools]: the palette, the widths and the buttons made of them. *)
Definition colors : list jsstring :=
  [lit "#111827"; lit "#ef4444"; lit "#3b82f6"; lit "#22c55e"; lit "#f97316";
   lit "#a855f7"].

Definition widths : list number := [2; 4; 8; 14].

Record ColorButton := {
  cb_color : jsstring;     (* the background, and what a click selects *)
  cb_ring : bool           (* [color === c] *)
}.

Record WidthButton := {
  wb_width : number;       (* what a click selects *)
  wb_ring : bool;          (* [width === w] *)
  wb_dot : number          (* the dot's width and height, [w + 4] *)
}.

Definition DrawingTools (color : jsstring) (width : number) :
    list ColorButton * list WidthButton :=
  (map (fun c => {| cb_color := c; cb_ring := str_eqb color c |}) colors,
   map (fun w => {| wb_width := w; wb_ring := width =? w; wb_dot := w + 4 |})
       widths).

(** The tools a view shows. *)
Definition tools_on_screen (v : View) : option Tools :=
  match v with
  | GameView _ _ _ _ _ tools _ => tools
  | _ => None
  end.

(** ** More notions used in the statements *)

(** Why a step of a run emits the message [m]: there is a socket, and the
    step is the one control that emits that kind of message, in a state that
    lets it. *)
Definition origin (a : Action) (w : World) (m : ClientMsg) : Prop :=
  socket (app w) <> None /\
  match m with
  | JoinGame u => a = ClickJoin /\ u = trim (username (app w)) /\ u <> []
  | Drawing d => a = DrawStroke d /\ isDrawer (app w) = true
  | ClearCanvas => a = ClickClear /\ isDrawer (app w) = true
  | ChatMsg t => exists input, a = SendChat input /\ t = trim input /\ t <> []
  | ReadyForNextRound => a = ClickReady
  end.

(** A text as the client sends it: not empty, and trimming leaves it as it
    is. *)
Definition tidy (s : jsstring) : Prop := s <> [] /\ trim s = s.

Definition tidy_msg (m : ClientMsg) : Prop :=
  match m with
  | JoinGame u => tidy u
  | ChatMsg t => tidy t
  | _ => True
  end.

(** A message only the drawer is meant to send. *)
Definition drawer_msg (m : ClientMsg) : bool :=
  match m with Drawing _ | ClearCanvas => true | _ => false end.

(** The client is not the drawer before any step of the run. *)
Fixpoint never_drawer (l : list Action) (w : World) : bool :=
  match l with
  | [] => true
  | a :: l' => negb (isDrawer (app w)) && never_drawer l' (perform a w)
  end.

Definition installs_socket (a : Action) : bool :=
  match a with SocketIs (Some _) => true | _ => false end.

(** The payload of the last [newRound] of a run, if there was one. *)
Fixpoint last_newRound (l : list Action) : option NewRound :=
  match l with
  | [] => None
  | a :: l' =>
      match last_newRound l' with
      | Some p => Some p
      | None => match a with Receive (EvNewRound p) => Some p | _ => None end
      end
  end.

(** The strokes among received events, in order of arrival. *)
Fixpoint drawings (es : list ServerEvent) : list DrawData.t :=
  match es with
  | [] => []
  | EvDrawing d :: es' => d :: drawings es'
  | _ :: es' => drawings es'
  end.

(** An event whose handler neither sets the phase nor clears the canvas. *)
Definition keeps_drawing (e : ServerEvent) : bool :=
  match e with
  | EvGameState _ | EvNewRound _ | EvRoundEnd _ | EvClearCanvas => false
  | _ => true
  end.

(** How many buttons carry the selection ring. *)
Definition rings_of_colors (bs : list ColorButton) : nat :=
  List.length (filter cb_ring bs).

Definition rings_of_widths (bs : list WidthButton) : nat :=
  List.length (filter wb_ring bs).

Definition picks_offered (a : Action) : Prop :=
  match a with
  | PickColor c => In c colors
  | PickWidth n => In n widths
  | _ => True
  end.

(** The score a view shows, if it shows one. *)
Definition score_on_screen (v : View) : option number :=
  match v with
  | RoundEndView _ _ s => s
  | GameView _ _ _ s _ _ _ => Some s
  | _ => None
  end.

(** The player rows of a view. *)
Definition rows_on_screen (v : View) : list PlayerRow :=
  match v with
  | GameView rows _ _ _ _ _ _ => rows
  | _ => []
  end.

(** A player whose id is not the given value. *)
Definition other_than (k : value) (p : Player.t) : Prop :=
  strict_eq (VString (Player.id p)) k = false.

(** * Properties *)

(** ** Strings and strict equality *)

Lemma str_eqb_refl (s : jsstring) : str_eqb s s = true.
Proof.
  induction s as [|c s IH]; simpl; [reflexivity|].
  now rewrite N.eqb_refl, IH.
Qed.

Lemma str_eqb_eq (s t : jsstring) : str_eqb s t = true <-> s = t.
Proof.
  split.
  - revert t; induction s as [|c s IH]; intros [|d t]; simpl; try discriminate.
    + reflexivity.
    + intros H. apply andb_true_iff in H as [Hc Hs].
      apply N.eqb_eq in Hc. apply IH in Hs. now subst.
  - intros ->. apply str_eqb_refl.
Qed.

(** [undefined] and [null] are different values: a missing id never equals a
    missing drawer. *)
Lemma strict_eq_optional_nullable (a o : option jsstring) :
  strict_eq (of_optional a) (of_nullable o) = true <->
  exists i, a = Some i /\ o = Some i.
Proof.
  split.
  - destruct a as [s|], o as [t|]; simpl; try discriminate.
    intros H. apply str_eqb_eq in H. subst. now exists t.
  - intros (i & -> & ->). simpl. apply str_eqb_refl.
Qed.

Lemma strict_eq_undefined_nullable (o : option jsstring) :
  strict_eq VUndefined (of_nullable o) = false.
Proof. now destruct o. Qed.

Example trim_sample :
  trim (lit "  bob the builder" ++ [9%N; 32%N]) = lit "bob the builder".
Proof. reflexivity. Qed.

Example trim_blank : trim (lit "   " ++ [160%N; 12288%N]) = [].
Proof. reflexivity. Qed.

Lemma trimStart_head (s : jsstring) :
  match trimStart s with
  | [] => True
  | c :: _ => isWhiteSpace c = false
  end.
Proof.
  induction s as [|c s IH]; simpl; [exact I|].
  destruct (isWhiteSpace c) eqn:E; [exact IH | exact E].
Qed.

(** ** The drawer test *)

Lemma isDrawer_true_iff (r : AppState) :
  isDrawer r = true <->
  exists s i, socket r = Some s /\ id s = Some i /\ currentDrawerId r = Some i.
Proof.
  unfold isDrawer, socket_id. destruct (socket r) as [s|].
  - rewrite strict_eq_optional_nullable. split.
    + intros (i & Hi & Hd). now exists s, i.
    + intros (s' & i & Hs & Hi & Hd). inversion Hs; subst. now exists i.
  - rewrite strict_eq_undefined_nullable. split; [discriminate|].
    intros (s & i & Hs & _). discriminate.
Qed.


Lemma isDrawer_has_socket (r : AppState) :
  isDrawer r = true -> exists s, socket r = Some s.
Proof.
  intros H. apply isDrawer_true_iff in H as (s & _ & Hs & _). now exists s.
Qed.

(** ** Drawing *)

Lemma handleDraw_eq (r : AppState) (d : DrawData.t) (w : World) :
  handleDraw r d w = if isDrawer r then emit (Drawing d) w else w.
Proof.
  unfold handleDraw. destruct (isDrawer r) eqn:E.
  - destruct (isDrawer_has_socket r E) as [s ->]. reflexivity.
  - destruct (socket r); reflexivity.
Qed.

Lemma emit_opt_sent (s : option Socket) (m : ClientMsg) (w : World) :
  sent (emit_opt s m w) = sent w ++ match s with Some _ => [m] | None => [] end.
Proof. destruct s; simpl; [reflexivity | now rewrite app_nil_r]. Qed.

Lemma canvas_sent (c : CanvasCall) (w : World) : sent (canvas c w) = sent w.
Proof. unfold canvas. now destruct (canvasRef w). Qed.

Lemma canvas_app (c : CanvasCall) (w : World) : app (canvas c w) = app w.
Proof. unfold canvas. now destruct (canvasRef w). Qed.

Lemma socket_on_sent (r : AppState) (e : ServerEvent) (w : World) :
  sent (on r e w) = sent w.
Proof.
  destruct e; simpl; unfold seq; rewrite ?canvas_sent; reflexivity.
Qed.




(** ** Leaving the round-end screen *)

(** C2, against the claim as stated.  Two clients on the round-end screen;
    Alice presses the button, Bob has not: Alice's client is in Waiting at
    once. *)
Lemma one_ready_signal_leaves_RoundEnd :
  let room := [Sample.client (lit "A") RoundEnd None None;
               Sample.client (lit "B") RoundEnd None None] in
  let room' := client_does 0 (act handleReadyForNext) room in
  map (fun w => gameState (app w)) room = [RoundEnd; RoundEnd]
  /\ map (fun w => gameState (app w)) room' = [Waiting; RoundEnd]
  /\ map has_signalled_ready room' = [true; false]
  /\ map (fun w => List.length (players (app w))) room' = [2%nat; 2%nat]
  /\ (waiting_only_when_all_ready -> False).
Proof.
  cbv zeta. repeat split.
  intros H.
  specialize (H [Sample.client (lit "A") RoundEnd None None;
                 Sample.client (lit "B") RoundEnd None None]
                0%nat
                (Sample.client (lit "A") RoundEnd None None)
                (act handleReadyForNext
                   (Sample.client (lit "A") RoundEnd None None))
                eq_refl eq_refl eq_refl eq_refl).
  destruct H as [H|H]; discriminate H.
Qed.

(** C2, as the client does it.  The ready handler emits [readyForNextRound]
    when there is a socket, forgets the round result and puts the local
    phase to Waiting, in every state: whatever the phase was, whoever the
    players are and whatever the other clients have sent. *)
Theorem handleReadyForNext_always_waits (r : AppState) (w : World) :
  gameState (app (handleReadyForNext r w)) = Waiting
  /\ roundResult (app (handleReadyForNext r w)) = None
  /\ sent (handleReadyForNext r w) =
       sent w ++ match socket r with Some _ => [ReadyForNextRound] | None => [] end
  /\ canvasRef (handleReadyForNext r w) = canvasRef w
  /\ players (app (handleReadyForNext r w)) = players (app w)
  /\ messages (app (handleReadyForNext r w)) = messages (app w)
  /\ forall (room : Room) (i : nat),
       nth_error room i = Some w ->
       nth_error (client_does i (handleReadyForNext r) room) i
         = Some (handleReadyForNext r w)
       /\ forall j, j <> i ->
            nth_error (client_does i (handleReadyForNext r) room) j
              = nth_error room j.
Proof.
  unfold handleReadyForNext, seq; simpl. rewrite emit_opt_sent.
  repeat split; try (destruct (socket r); reflexivity).
  - revert i H; induction room as [|v room IH]; intros [|i] H;
      simpl in *; try discriminate.
    + now inversion H.
    + now apply IH.
  - revert i H; induction room as [|v room IH]; intros [|i] H j Hj;
      simpl in *; try discriminate.
    + destruct j; [congruence | reflexivity].
    + destruct j; [reflexivity|]. apply IH; [exact H | congruence].
Qed.

Lemma handleReadyForNext_always_waits_witness :
  gameState (app (act handleReadyForNext
                    (Sample.client (lit "A") RoundEnd None None))) = Waiting.
Proof.
  exact (proj1 (handleReadyForNext_always_waits
                  (app (Sample.client (lit "A") RoundEnd None None))
                  (Sample.client (lit "A") RoundEnd None None))).
Defined.

(** ** The word of a round *)

(** C3, against the claim as stated.  Alice's client is told that Bob
    draws "apple": it is not the drawer, it is in the Game phase, and it
    holds and shows "apple". *)
Lemma newRound_word_reaches_guesser :
  let p := {| nr_drawerId := Some (lit "B"); nr_word := lit "apple";
              nr_time := 60 |} in
  let w' := socket_on (EvNewRound p) (Sample.client (lit "A") Waiting None None) in
  isDrawer (app w') = false
  /\ gameState (app w') = Game
  /\ currentWord (app w') = lit "apple"
  /\ word_on_screen (renderContent (app w')) = Some (lit "apple")
  /\ (word_withheld_from_guessers -> False).
Proof.
  cbv zeta. repeat split.
  intros H.
  destruct (H (Sample.client (lit "A") Waiting None None)
              {| nr_drawerId := Some (lit "B"); nr_word := lit "apple";
                 nr_time := 60 |} eq_refl) as [H1 _].
  discriminate H1.
Qed.

Lemma on_newRound_app (r : AppState) (p : NewRound) (w : World) :
  app (on r (EvNewRound p) w) =
  {| socket := socket (app w);
     gameState := Game;
     players := players (app w);
     messages :=
       [ ChatMessage.mk (lit "System")
           (template (username_of r (of_nullable (nr_drawerId p)))
              ++ is_drawing_suffix)
           (Some true) None ];
     currentWord := nr_word p;
     timeLeft := nr_time p;
     currentDrawerId := nr_drawerId p;
     username := username (app w);
     roundResult := roundResult (app w);
     drawColor := drawColor (app w);
     lineWidth := lineWidth (app w) |}.
Proof. simpl. unfold seq. now rewrite canvas_app. Qed.

(** C3, as the client does it.  The [newRound] handler stores the word of
    the payload as it came, for the drawer and for everyone else, and the
    Game screen shows the stored word: the word on a client's screen is the
    word that client was sent, and it is empty exactly when the payload's
    word was empty. *)
Theorem newRound_word_stored_as_sent (r : AppState) (p : NewRound) (w : World) :
  gameState (app (on r (EvNewRound p) w)) = Game
  /\ currentDrawerId (app (on r (EvNewRound p) w)) = nr_drawerId p
  /\ currentWord (app (on r (EvNewRound p) w)) = nr_word p
  /\ word_on_screen (renderContent (app (on r (EvNewRound p) w)))
     = Some (nr_word p)
  /\ (word_on_screen (renderContent (app (on r (EvNewRound p) w))) = Some []
      <-> nr_word p = []).
Proof.
  rewrite on_newRound_app. unfold renderContent; simpl.
  repeat split; try reflexivity.
  - intros H. now inversion H.
  - intros ->. reflexivity.
Qed.

Lemma newRound_word_stored_as_sent_witness :
  currentWord
    (app (socket_on
            (EvNewRound {| nr_drawerId := Some (lit "B"); nr_word := [];
                           nr_time := 60 |})
            (Sample.client (lit "A") Waiting None None))) = [].
Proof.
  exact (proj1 (proj2 (proj2 (newRound_word_stored_as_sent initial
    {| nr_drawerId := Some (lit "B"); nr_word := []; nr_time := 60 |}
    (Sample.client (lit "A") Waiting None None))))).
Defined.

(** ** Clearing the canvas on events *)

Lemma canvas_mounted (c : CanvasCall) (w : World) (calls : list CanvasCall) :
  canvasRef w = Some calls -> canvasRef (canvas c w) = Some (calls ++ [c]).
Proof. unfold canvas. intros ->. reflexivity. Qed.

(** No handler mounts or unmounts a canvas. *)
Lemma on_no_canvas (r : AppState) (e : ServerEvent) (w : World) :
  canvasRef w = None -> canvasRef (on r e w) = None.
Proof.
  intros H. destruct e; simpl; unfold seq, canvas; simpl; now rewrite ?H.
Qed.

(** C4.  With a canvas mounted, the handlers of [clearCanvas] and
    [newRound] make exactly one call on it, [clear]; the handler of every
    other event makes no [clear] call (the [drawing] handler calls
    [drawFromServer], the others call nothing). *)
Theorem canvas_cleared_exactly_on_clearCanvas_and_newRound
    (r : AppState) (e : ServerEvent) (w : World) (calls : list CanvasCall) :
  canvasRef w = Some calls ->
  exists l,
    canvasRef (on r e w) = Some (calls ++ l)
    /\ (In CanvasClear l <-> clears e)
    /\ (clears e -> l = [CanvasClear]).
Proof.
  intros H. unfold clears.
  destruct e as [ |g|ps|m|p|t|d| |res].
  5: { exists [CanvasClear]. simpl. unfold seq. split.
       - now apply canvas_mounted.
       - split; [split|]; intros; [right; now exists p | now left | reflexivity]. }
  7: { exists [CanvasClear]. simpl. split.
       - now apply canvas_mounted.
       - split; [split|]; intros; [now left | now left | reflexivity]. }
  6: { exists [CanvasDrawFromServer d]. simpl. split.
       - now apply canvas_mounted.
       - split; [split|].
         + intros [F|[]]; discriminate F.
         + intros [F|[p F]]; discriminate F.
         + intros [F|[p F]]; discriminate F. }
  all: exists []; simpl; unfold seq; simpl; rewrite app_nil_r; split;
    [exact H | split; [split|]];
    [ intros [] | intros [F|[p F]]; discriminate F
    | intros [F|[p F]]; discriminate F ].
Qed.

Lemma canvas_cleared_exactly_on_clearCanvas_and_newRound_witness :
  exists l,
    canvasRef (on initial EvClearCanvas
                 (Sample.client (lit "A") Game (Some (lit "B"))
                    (Some [CanvasDrawFromServer Sample.stroke])))
      = Some ([CanvasDrawFromServer Sample.stroke] ++ l)
    /\ (In CanvasClear l <-> clears EvClearCanvas)
    /\ (clears EvClearCanvas -> l = [CanvasClear]).
Proof.
  exact (canvas_cleared_exactly_on_clearCanvas_and_newRound initial
           EvClearCanvas
           (Sample.client (lit "A") Game (Some (lit "B"))
              (Some [CanvasDrawFromServer Sample.stroke]))
           [CanvasDrawFromServer Sample.stroke] eq_refl).
Defined.

(** ** Trimming *)

Lemma trimStart_split (s : jsstring) :
  exists a, s = a ++ trimStart s /\ forallb isWhiteSpace a = true.
Proof.
  induction s as [|c s (a & Hs & Ha)]; simpl.
  - now exists [].
  - destruct (isWhiteSpace c) eqn:E.
    + exists (c :: a). simpl. rewrite E, Ha. split; [now f_equal | reflexivity].
    + now exists [].
Qed.

Lemma trimEnd_split (s : jsstring) :
  exists b, s = trimEnd s ++ b /\ forallb isWhiteSpace b = true.
Proof.
  unfold trimEnd. destruct (trimStart_split (rev s)) as (a & Hs & Ha).
  exists (rev a). split.
  - rewrite <- rev_app_distr, <- Hs. symmetry. apply rev_involutive.
  - rewrite forallb_forall in *. intros c Hc. apply Ha. now apply in_rev.
Qed.

Lemma trimEnd_last (s : jsstring) (c : code_unit) (t : jsstring) :
  trimEnd s = t ++ [c] -> isWhiteSpace c = false.
Proof.
  unfold trimEnd. intros H.
  assert (E : trimStart (rev s) = c :: rev t).
  { rewrite <- (rev_involutive (trimStart (rev s))), H, rev_app_distr.
    reflexivity. }
  pose proof (trimStart_head (rev s)) as Hh. now rewrite E in Hh.
Qed.

(** Trimming a string that starts with a non-blank unit keeps the start. *)
Lemma trimEnd_head (c : code_unit) (s : jsstring) :
  isWhiteSpace c = false -> exists t, trimEnd (c :: s) = c :: t.
Proof.
  intros Hc. destruct (trimEnd_split (c :: s)) as (b & Hs & Hb).
  destruct (trimEnd (c :: s)) as [|d t] eqn:E.
  - simpl in Hs. subst b. simpl in Hb. now rewrite Hc in Hb.
  - simpl in Hs. inversion Hs; subst. now exists t.
Qed.

(** [s.trim()] is [s] without a blank prefix and a blank suffix, and it
    neither starts nor ends with a blank. *)
Lemma trim_spec (s : jsstring) :
  (exists a b, s = a ++ trim s ++ b
     /\ forallb isWhiteSpace a = true /\ forallb isWhiteSpace b = true)
  /\ (forall c t, trim s = c :: t -> isWhiteSpace c = false)
  /\ (forall c t, trim s = t ++ [c] -> isWhiteSpace c = false).
Proof.
  unfold trim. split; [|split].
  - destruct (trimStart_split s) as (a & Hs & Ha).
    destruct (trimEnd_split (trimStart s)) as (b & Ht & Hb).
    exists a, b. rewrite <- Ht. now repeat split.
  - intros c t H. pose proof (trimStart_head s) as Hh.
    destruct (trimStart s) as [|d u] eqn:E; [discriminate H|].
    destruct (trimEnd_head d u Hh) as (v & Hv). rewrite Hv in H.
    now inversion H; subst.
  - intros c t H. now apply trimEnd_last in H.
Qed.

(** ** Joining *)

Lemma truthy_iff (s : jsstring) : truthy s = true <-> s <> [].
Proof. destruct s; simpl; split; congruence. Qed.

(** C5.  The join handler emits [joinGame] with the trimmed username and
    puts the phase to Waiting when the trimmed username is not empty and
    there is a socket, and does nothing at all otherwise; so from the Lobby
    the phase becomes Waiting if and only if that condition holds, and a
    [joinGame] is emitted if and only if it holds. *)
Theorem handleJoinGame_joins_iff_trimmed_nonempty (r : AppState) (w : World) :
  (trim (username r) <> [] /\ socket r <> None ->
     sent (handleJoinGame r w) = sent w ++ [JoinGame (trim (username r))]
     /\ gameState (app (handleJoinGame r w)) = Waiting
     /\ handleJoinGame r w
        = setGameState Waiting (emit (JoinGame (trim (username r))) w))
  /\ (trim (username r) = [] \/ socket r = None -> handleJoinGame r w = w)
  /\ (gameState (app w) = Lobby ->
        (gameState (app (handleJoinGame r w)) = Waiting
         <-> trim (username r) <> [] /\ socket r <> None))
  /\ (sent (handleJoinGame r w) <> sent w
        <-> trim (username r) <> [] /\ socket r <> None).
Proof.
  unfold handleJoinGame.
  destruct (socket r) as [s|].
  - destruct (trim (username r)) as [|c u] eqn:E; simpl; unfold seq; simpl.
    + repeat split; try tauto; try congruence.
      unfold skip in *. congruence.
    + repeat split; try tauto; try congruence.
      * intros [H|H]; discriminate H.
      * intros _ H. apply (f_equal (@List.length _)) in H.
        rewrite length_app in H. simpl in H. lia.
  - assert (E : (if truthy (trim (username r)) then skip else skip) = skip)
      by now destruct (truthy _).
    rewrite E. unfold skip.
    repeat split; try tauto; try congruence.
Qed.

Lemma handleJoinGame_joins_iff_trimmed_nonempty_witness :
  sent (act handleJoinGame (Sample.lobby (lit "  bob "))) = [JoinGame (lit "bob")]
  /\ act handleJoinGame (Sample.lobby (lit "   ")) = Sample.lobby (lit "   ").
Proof.
  split.
  - refine (proj1 (proj1 (handleJoinGame_joins_iff_trimmed_nonempty
                            (app (Sample.lobby (lit "  bob ")))
                            (Sample.lobby (lit "  bob "))) _)).
    split; discriminate.
  - refine (proj1 (proj2 (handleJoinGame_joins_iff_trimmed_nonempty
                            (app (Sample.lobby (lit "   ")))
                            (Sample.lobby (lit "   ")))) _).
    left. reflexivity.
Defined.

(** ** The clear button *)

(** C6.  The clear action of the drawer calls [clear] on the mounted canvas
    and emits [clearCanvas]; for a client that is not the drawer it leaves
    the world as it was: no call on the canvas, nothing emitted. *)
Theorem handleClearCanvas_only_for_drawer (r : AppState) (w : World) :
  sent (handleClearCanvas r w)
    = sent w ++ (if isDrawer r then [ClearCanvas] else [])
  /\ canvasRef (handleClearCanvas r w)
    = option_map
        (fun calls => calls ++ (if isDrawer r then [CanvasClear] else []))
        (canvasRef w)
  /\ app (handleClearCanvas r w) = app w
  /\ (isDrawer r = false -> handleClearCanvas r w = w)
  /\ (sent (handleClearCanvas r w) <> sent w -> isDrawer r = true).
Proof.
  unfold handleClearCanvas. destruct (isDrawer r) eqn:E.
  - destruct (isDrawer_has_socket r E) as [s ->].
    unfold seq, canvas; simpl.
    destruct (canvasRef w) as [calls|] eqn:C; simpl; rewrite ?C;
      repeat split; try reflexivity; try discriminate.
  - unfold skip. rewrite !app_nil_r.
    repeat split; try reflexivity.
    + destruct (canvasRef w); simpl; [now rewrite app_nil_r | reflexivity].
    + intros H. now contradiction H.
Qed.

Lemma handleClearCanvas_only_for_drawer_witness :
  act handleClearCanvas (Sample.client (lit "A") Game (Some (lit "B")) (Some []))
  = Sample.client (lit "A") Game (Some (lit "B")) (Some []).
Proof.
  refine (proj1 (proj2 (proj2 (proj2 (handleClearCanvas_only_for_drawer
    (app (Sample.client (lit "A") Game (Some (lit "B")) (Some [])))
    (Sample.client (lit "A") Game (Some (lit "B")) (Some [])))))) _).
  reflexivity.
Defined.

(** ** The end of a round *)

(** C7.  The [roundEnd] handler puts the phase to RoundEnd and stores the
    payload as the round result; the screen then shows the payload's word,
    and the winner's name when the payload has a winner. *)
Theorem roundEnd_shows_received_word (r : AppState) (res : RoundResult) (w : World) :
  gameState (app (on r (EvRoundEnd res) w)) = RoundEnd
  /\ roundResult (app (on r (EvRoundEnd res) w)) = Some res
  /\ word_on_screen (renderContent (app (on r (EvRoundEnd res) w)))
     = Some (word res)
  /\ renderContent (app (on r (EvRoundEnd res) w))
     = RoundEndView (option_map Player.username (winner res))
         (Some (word res)) (own_score (app w)).
Proof.
  simpl; unfold seq, renderContent; simpl. repeat split.
Qed.

Lemma roundEnd_shows_received_word_witness :
  renderContent
    (app (socket_on
            (EvRoundEnd {| winner := Some Sample.bob; word := lit "apple" |})
            (Sample.client (lit "A") Game (Some (lit "B")) (Some []))))
  = RoundEndView (Some (lit "bob")) (Some (lit "apple")) (Some 0).
Proof.
  exact (proj2 (proj2 (proj2 (roundEnd_shows_received_word initial
    {| winner := Some Sample.bob; word := lit "apple" |}
    (Sample.client (lit "A") Game (Some (lit "B")) (Some [])))))).
Defined.

(** ** Chat *)

Lemma on_messages (r : AppState) (e : ServerEvent) (w : World) :
  is_newRound e = false ->
  messages (app (on r e w)) = messages (app w) ++ chats [e].
Proof.
  destruct e; simpl; unfold seq; rewrite ?canvas_app, ?app_nil_r;
    try reflexivity; discriminate.
Qed.

Lemma chats_app (a b : list ServerEvent) : chats (a ++ b) = chats a ++ chats b.
Proof.
  induction a as [|e a IH]; simpl; [reflexivity|].
  destruct e; simpl; now rewrite ?IH.
Qed.

Lemma receive_cons (e : ServerEvent) (es : list ServerEvent) (w : World) :
  receive (e :: es) w = receive es (socket_on e w).
Proof. reflexivity. Qed.

(** Within a round, whatever else arrives in between, the message list
    grows by the chat entries received, in order of arrival. *)
Lemma receive_messages (es : list ServerEvent) (w : World) :
  existsb is_newRound es = false ->
  messages (app (receive es w)) = messages (app w) ++ chats es.
Proof.
  revert w; induction es as [|e es IH]; intros w H.
  - simpl. now rewrite app_nil_r.
  - simpl in H. apply orb_false_iff in H as [He Hes].
    rewrite receive_cons, IH by exact Hes.
    unfold socket_on. rewrite on_messages by exact He.
    rewrite <- app_assoc. f_equal.
    change (e :: es) with ([e] ++ es). now rewrite chats_app.
Qed.

Lemma chats_map (ms : list ChatMessage.t) : chats (map EvChatMessage ms) = ms.
Proof. induction ms as [|m ms IH]; simpl; [reflexivity | now rewrite IH]. Qed.

Lemma no_newRound_map (ms : list ChatMessage.t) :
  existsb is_newRound (map EvChatMessage ms) = false.
Proof. induction ms as [|m ms IH]; simpl; [reflexivity | exact IH]. Qed.

(** C8.  A [chatMessage] event puts its entry at the end of the message
    list.  So after any sequence of chat entries the list is the old list
    followed by the entries in order of arrival, the old entries keep their
    places, and the Game screen lists the entries in that order. *)
Theorem chat_is_fifo (w : World) (ms : list ChatMessage.t) :
  (forall m, messages (app (socket_on (EvChatMessage m) w))
             = messages (app w) ++ [m])
  /\ messages (app (receive (map EvChatMessage ms) w)) = messages (app w) ++ ms
  /\ firstn (List.length (messages (app w)))
       (messages (app (receive (map EvChatMessage ms) w))) = messages (app w)
  /\ skipn (List.length (messages (app w)))
       (messages (app (receive (map EvChatMessage ms) w))) = ms
  /\ (gameState (app w) = Game ->
      chat_on_screen (renderContent (app (receive (map EvChatMessage ms) w)))
      = messages (app w) ++ ms).
Proof.
  assert (E : messages (app (receive (map EvChatMessage ms) w))
              = messages (app w) ++ ms).
  { rewrite receive_messages by apply no_newRound_map.
    now rewrite chats_map. }
  split; [reflexivity|]. rewrite E. split; [reflexivity|].
  split; [|split].
  - rewrite firstn_app, Nat.sub_diag, firstn_all. simpl. apply app_nil_r.
  - rewrite skipn_app, Nat.sub_diag, skipn_all. reflexivity.
  - intros G.
    assert (G' : gameState (app (receive (map EvChatMessage ms) w)) = Game).
    { clear E. revert w G. induction ms as [|m ms IH]; intros w G.
      - exact G.
      - simpl map. rewrite receive_cons. apply IH. exact G. }
    unfold renderContent. rewrite G'. simpl. exact E.
Qed.

Lemma chat_is_fifo_witness :
  messages
    (app (receive
            (map EvChatMessage
               [ChatMessage.mk (lit "bob") (lit "dog?") None None;
                ChatMessage.mk (lit "alice") (lit "no") None None])
            (Sample.client (lit "A") Game (Some (lit "A")) (Some []))))
  = [ChatMessage.mk (lit "bob") (lit "cat?") None None;
     ChatMessage.mk (lit "bob") (lit "dog?") None None;
     ChatMessage.mk (lit "alice") (lit "no") None None].
Proof.
  exact (proj1 (proj2 (chat_is_fifo
    (Sample.client (lit "A") Game (Some (lit "A")) (Some []))
    [ChatMessage.mk (lit "bob") (lit "dog?") None None;
     ChatMessage.mk (lit "alice") (lit "no") None None]))).
Defined.

(** ** The start of a round *)

(** The handlers are those of the first render, whose player list is empty:
    no name is found, and the text starts with "undefined". *)
Lemma opening_message_initial (drawerId : option jsstring) :
  opening_message initial drawerId =
  ChatMessage.mk (lit "System") (lit "undefined" ++ is_drawing_suffix)
    (Some true) None.
Proof. reflexivity. Qed.

(** X17.  The [newRound] handler replaces the message list: whatever the
    list held, it holds afterwards exactly one entry, written by System and
    flagged as a system message, whose text ends with " rəsm çəkir...". *)
Theorem newRound_discards_chat_history (r : AppState) (p : NewRound) (w : World) :
  messages (app (on r (EvNewRound p) w)) = [opening_message r (nr_drawerId p)]
  /\ List.length (messages (app (on r (EvNewRound p) w))) = 1%nat
  /\ (forall m, In m (messages (app (on r (EvNewRound p) w))) ->
        ChatMessage.isSystemMessage m = Some true
        /\ ChatMessage.username m = lit "System"
        /\ exists name, ChatMessage.message m = name ++ is_drawing_suffix)
  /\ (forall w2 : World,
        messages (app (on r (EvNewRound p) w2))
        = messages (app (on r (EvNewRound p) w))).
Proof.
  split; [|split; [|split]].
  - now rewrite on_newRound_app.
  - now rewrite on_newRound_app.
  - rewrite on_newRound_app. simpl. intros m [<-|[]]. simpl.
    repeat split. eexists. reflexivity.
  - intros w2. now rewrite !on_newRound_app.
Qed.

Lemma newRound_discards_chat_history_witness :
  messages
    (app (socket_on
            (EvNewRound {| nr_drawerId := Some (lit "B"); nr_word := [];
                           nr_time := 60 |})
            (Sample.client (lit "A") Waiting None None)))
  = [ChatMessage.mk (lit "System") (lit "undefined" ++ is_drawing_suffix)
       (Some true) None].
Proof.
  exact (proj1 (newRound_discards_chat_history initial
    {| nr_drawerId := Some (lit "B"); nr_word := []; nr_time := 60 |}
    (Sample.client (lit "A") Waiting None None))).
Defined.

(** C9.  The claim at a client that has been sent the roster of Alice and
    Bob and is then told that Bob (id "B") draws.  The chat history is gone
    and one system message is left, as the claim says; but its text is
    "undefined rəsm çəkir...": the handler of the mount effect looks Bob up
    in the player list of the first render, which is empty, and does not
    announce the drawer.  The handler of a render that holds the roster
    would write "bob rəsm çəkir...". *)
Theorem newRound_announcement_misses_the_drawer :
  let w := receive [EvUpdatePlayers [Sample.alice; Sample.bob];
                    EvChatMessage
                      (ChatMessage.mk (lit "bob") (lit "hello") None None)]
             (Sample.lobby (lit "alice")) in
  let p := {| nr_drawerId := Some (lit "B"); nr_word := [];
              nr_time := 60 |} in
  players (app w) = [Sample.alice; Sample.bob]
  /\ messages (app w) = [ChatMessage.mk (lit "bob") (lit "hello") None None]
  /\ messages (app (socket_on (EvNewRound p) w))
     = [ChatMessage.mk (lit "System") (lit "undefined" ++ is_drawing_suffix)
          (Some true) None]
  /\ messages (app (on (app w) (EvNewRound p) w))
     = [ChatMessage.mk (lit "System") (lit "bob" ++ is_drawing_suffix)
          (Some true) None].
Proof. cbv zeta. repeat split. Qed.

(** ** The countdown *)

(** C10.  The [timer] handler sets the remaining time to its payload and
    changes nothing else: not the players, the messages, the phase, the
    word, the drawer id or the round result, nor any other hook value, nor
    what was emitted, nor the canvas. *)
Theorem timer_changes_only_timeLeft (r : AppState) (t : number) (w : World) :
  timeLeft (app (on r (EvTimer t) w)) = t
  /\ players (app (on r (EvTimer t) w)) = players (app w)
  /\ messages (app (on r (EvTimer t) w)) = messages (app w)
  /\ gameState (app (on r (EvTimer t) w)) = gameState (app w)
  /\ currentWord (app (on r (EvTimer t) w)) = currentWord (app w)
  /\ currentDrawerId (app (on r (EvTimer t) w)) = currentDrawerId (app w)
  /\ roundResult (app (on r (EvTimer t) w)) = roundResult (app w)
  /\ socket (app (on r (EvTimer t) w)) = socket (app w)
  /\ username (app (on r (EvTimer t) w)) = username (app w)
  /\ drawColor (app (on r (EvTimer t) w)) = drawColor (app w)
  /\ lineWidth (app (on r (EvTimer t) w)) = lineWidth (app w)
  /\ sent (on r (EvTimer t) w) = sent w
  /\ canvasRef (on r (EvTimer t) w) = canvasRef w.
Proof. simpl. repeat split. Qed.

Lemma timer_changes_only_timeLeft_witness :
  timeLeft (app (socket_on (EvTimer 29)
                   (Sample.client (lit "A") Game (Some (lit "B")) (Some []))))
  = 29.
Proof.
  exact (proj1 (timer_changes_only_timeLeft initial 29
    (Sample.client (lit "A") Game (Some (lit "B")) (Some [])))).
Defined.

(** * Further properties of the component *)

(** ** Trimming twice *)

Lemma trimStart_fixed (s : jsstring) :
  (forall c u, s = c :: u -> isWhiteSpace c = false) -> trimStart s = s.
Proof.
  destruct s as [|c u]; intros H; simpl; [reflexivity|].
  now rewrite (H c u eq_refl).
Qed.

Lemma trimEnd_fixed (s : jsstring) :
  (forall c u, s = u ++ [c] -> isWhiteSpace c = false) -> trimEnd s = s.
Proof.
  intros H. unfold trimEnd. rewrite trimStart_fixed.
  - apply rev_involutive.
  - intros c u E. apply (H c (rev u)).
    rewrite <- (rev_involutive s), E. reflexivity.
Qed.

Lemma trim_idempotent (s : jsstring) : trim (trim s) = trim s.
Proof.
  destruct (trim_spec s) as (_ & Hhead & Hlast).
  unfold trim at 1. rewrite trimStart_fixed by exact Hhead.
  apply trimEnd_fixed. exact Hlast.
Qed.

Lemma trim_tidy (s : jsstring) : trim s <> [] -> tidy (trim s).
Proof. intros H. split; [exact H | apply trim_idempotent]. Qed.

(** ** What a step emits *)

(** A step of a run emits nothing or one message, and a message only for
    the reason [origin] gives. *)
Lemma perform_emits (a : Action) (w : World) :
  sent (perform a w) = sent w
  \/ exists m, sent (perform a w) = sent w ++ [m] /\ origin a w m.
Proof.
  destruct a; simpl; unfold act; try (left; reflexivity).
  - left. apply socket_on_sent.
  - unfold handleJoinGame, origin.
    destruct (trim (username (app w))) as [|c u] eqn:E; simpl;
      [left; reflexivity|].
    destruct (socket (app w)) as [s|] eqn:S; [|left; reflexivity].
    right. exists (JoinGame (c :: u)). unfold seq; simpl.
    repeat split; congruence.
  - rewrite handleDraw_eq. destruct (isDrawer (app w)) eqn:D;
      [|left; reflexivity].
    right. exists (Drawing d). split; [reflexivity|]. unfold origin.
    destruct (isDrawer_has_socket _ D) as [s S]. repeat split; congruence.
  - unfold ChatArea_handleSend, handleSendMessage, origin.
    destruct (trim input) as [|c u] eqn:E; simpl; [left; reflexivity|].
    destruct (socket (app w)) as [s|] eqn:S; [|left; reflexivity].
    right. exists (ChatMsg (c :: u)). simpl. split; [reflexivity|].
    split; [congruence|]. exists input. repeat split; congruence.
  - unfold handleClearCanvas. destruct (isDrawer (app w)) eqn:D;
      [|left; reflexivity].
    right. exists ClearCanvas. unfold origin.
    destruct (isDrawer_has_socket _ D) as [s S]. rewrite S.
    unfold seq; simpl. rewrite canvas_sent. repeat split; congruence.
  - unfold handleReadyForNext, seq, origin; simpl.
    destruct (socket (app w)) as [s|] eqn:S; [|left; reflexivity].
    right. exists ReadyForNextRound. simpl. repeat split; congruence.
Qed.

(** The messages of a run come after those already emitted, and each of
    them satisfies what every emitting step guarantees. *)
Lemma run_emits (Q : ClientMsg -> Prop) (l : list Action) :
  (forall a w m, origin a w m -> Q m) ->
  forall w, exists new, sent (run l w) = sent w ++ new /\ Forall Q new.
Proof.
  intros HQ. induction l as [|a l IH]; intros w; simpl.
  - exists []. split; [now rewrite app_nil_r | constructor].
  - destruct (IH (perform a w)) as (new & E & F).
    destruct (perform_emits a w) as [P|(m & P & O)]; rewrite P in E.
    + now exists new.
    + exists (m :: new). rewrite <- app_assoc in E. split; [exact E|].
      constructor; [now apply (HQ a w) | exact F].
Qed.

(** ** Sending chat *)

(** X1.  [ChatArea]'s send handler, wired to [handleSendMessage]: an input
    that is blank after trimming is left in the box and nothing is emitted;
    any other input empties the box, and its trimmed text is emitted as one
    [chatMessage] when there is a socket and is lost when there is none.
    The hook values and the canvas are untouched, and neither the phase nor
    being the drawer matters. *)
Theorem chat_send_trims_and_skips_blank
    (input : jsstring) (r : AppState) (w : World) :
  fst (ChatArea_send input (handleSendMessage r))
    = (if truthy (trim input) then [] else input)
  /\ snd (ChatArea_send input (handleSendMessage r)) w
     = ChatArea_handleSend input r w
  /\ sent (ChatArea_handleSend input r w)
     = sent w ++ match trim input, socket r with
                 | _ :: _, Some _ => [ChatMsg (trim input)]
                 | _, _ => []
                 end
  /\ app (ChatArea_handleSend input r w) = app w
  /\ canvasRef (ChatArea_handleSend input r w) = canvasRef w.
Proof.
  unfold ChatArea_send, ChatArea_handleSend, handleSendMessage.
  destruct (trim input) as [|c u]; simpl.
  - rewrite app_nil_r. repeat split.
  - destruct (socket r); simpl; rewrite ?app_nil_r; repeat split.
Qed.

(** ** Texts on the wire *)

(** X2.  Whatever the user types and whatever arrives, every username sent
    with [joinGame] and every text sent with [chatMessage] is non-empty and
    already trimmed. *)
Theorem emitted_texts_are_tidy (l : list Action) (w : World) :
  exists new, sent (run l w) = sent w ++ new /\ Forall tidy_msg new.
Proof.
  apply run_emits. intros a v m (_ & O). destruct m; simpl in *; try exact I.
  - destruct O as (_ & -> & N). now apply trim_tidy.
  - destruct O as (input & _ & -> & N). now apply trim_tidy.
Qed.

(** ** A client that is not the drawer *)

(** X3.  Along a run in which the client is not the drawer before any
    step, no [drawing] and no [clearCanvas] is emitted, whatever the user
    draws or presses. *)
Theorem never_drawer_sends_no_stroke_or_clear (l : list Action) (w : World) :
  never_drawer l w = true ->
  exists new, sent (run l w) = sent w ++ new /\ existsb drawer_msg new = false.
Proof.
  revert w; induction l as [|a l IH]; intros w H; simpl in *.
  - exists []. split; [now rewrite app_nil_r | reflexivity].
  - apply andb_true_iff in H as [D H]. apply negb_true_iff in D.
    destruct (IH _ H) as (new & E & F).
    destruct (perform_emits a w) as [P|(m & P & _ & O)]; rewrite P in E.
    + now exists new.
    + exists (m :: new). rewrite <- app_assoc in E. split; [exact E|].
      simpl. rewrite F, orb_false_r.
      destruct m; simpl in *; try reflexivity;
        destruct O as [_ O]; congruence.
Qed.

Lemma never_drawer_sends_no_stroke_or_clear_witness :
  exists new,
    sent (run [DrawStroke Sample.stroke; ClickClear; SendChat (lit " cat ");
               Receive (EvTimer 29); DrawStroke Sample.stroke]
            (Sample.client (lit "A") Game (Some (lit "B")) (Some [])))
    = sent (Sample.client (lit "A") Game (Some (lit "B")) (Some [])) ++ new
    /\ existsb drawer_msg new = false.
Proof.
  apply (never_drawer_sends_no_stroke_or_clear
           [DrawStroke Sample.stroke; ClickClear; SendChat (lit " cat ");
            Receive (EvTimer 29); DrawStroke Sample.stroke]
           (Sample.client (lit "A") Game (Some (lit "B")) (Some []))).
  reflexivity.
Defined.

(** ** What a step leaves alone *)

Lemma on_frame (r : AppState) (e : ServerEvent) (w : World) :
  socket (app (on r e w)) = socket (app w)
  /\ username (app (on r e w)) = username (app w)
  /\ drawColor (app (on r e w)) = drawColor (app w)
  /\ lineWidth (app (on r e w)) = lineWidth (app w)
  /\ currentWord (app (on r e w))
     = match e with EvNewRound p => nr_word p | _ => currentWord (app w) end
  /\ currentDrawerId (app (on r e w))
     = match e with
       | EvNewRound p => nr_drawerId p
       | _ => currentDrawerId (app w)
       end.
Proof.
  destruct e; simpl; unfold seq; rewrite ?canvas_app; simpl; repeat split.
Qed.

Ltac frame_cases :=
  unfold seq; simpl; unfold skip; simpl; rewrite ?canvas_app; simpl;
  repeat split; try congruence.

Lemma perform_frame (a : Action) (w : World) :
  socket (app (perform a w))
    = match a with SocketIs s => s | _ => socket (app w) end
  /\ drawColor (app (perform a w))
    = match a with PickColor c => c | _ => drawColor (app w) end
  /\ lineWidth (app (perform a w))
    = match a with PickWidth n => n | _ => lineWidth (app w) end
  /\ currentWord (app (perform a w))
    = match a with
      | Receive (EvNewRound p) => nr_word p
      | _ => currentWord (app w)
      end
  /\ currentDrawerId (app (perform a w))
    = match a with
      | Receive (EvNewRound p) => nr_drawerId p
      | _ => currentDrawerId (app w)
      end.
Proof.
  destruct a; simpl; unfold act; try (repeat split; fail).
  - unfold socket_on.
    destruct (on_frame initial e w) as (H1 & _ & H3 & H4 & H5 & H6).
    rewrite H1, H3, H4, H5, H6. destruct e; repeat split.
  - unfold handleJoinGame.
    destruct (truthy _); destruct (socket (app w)) eqn:S; frame_cases.
  - rewrite handleDraw_eq. destruct (isDrawer (app w)); repeat split.
  - unfold ChatArea_handleSend, handleSendMessage.
    destruct (truthy _); [destruct (socket (app w)) eqn:S|]; frame_cases.
  - unfold handleClearCanvas.
    destruct (isDrawer (app w)); [|repeat split].
    destruct (socket (app w)) eqn:S; frame_cases.
  - unfold handleReadyForNext.
    destruct (socket (app w)) eqn:S; frame_cases.
Qed.

(** ** Before there is a socket *)

(** X4.  While the [socket] hook is null, nothing is emitted: as long as no
    socket is installed, no typing, clicking, drawing or incoming event
    makes the client emit, and the hook stays null. *)
Theorem no_socket_nothing_sent (l : list Action) (w : World) :
  socket (app w) = None ->
  existsb installs_socket l = false ->
  sent (run l w) = sent w /\ socket (app (run l w)) = None.
Proof.
  revert w; induction l as [|a l IH]; intros w S H; simpl in *.
  - now split.
  - apply orb_false_iff in H as [Ha Hl].
    assert (S' : socket (app (perform a w)) = None).
    { destruct (perform_frame a w) as (F & _). rewrite F.
      destruct a as [[s|]| | | | | | | | |]; try exact S;
        [discriminate Ha | reflexivity]. }
    destruct (IH _ S' Hl) as [E1 E2]. split; [|exact E2].
    rewrite E1. destruct (perform_emits a w) as [P|(m & _ & N & _)].
    + exact P.
    + contradiction.
Qed.

Lemma no_socket_nothing_sent_witness :
  sent (run [TypeUsername (lit "bob"); ClickJoin; SendChat (lit "hi");
             ClickReady; DrawStroke Sample.stroke]
          {| app := initial; sent := []; canvasRef := None |}) = []
  /\ socket (app (run [TypeUsername (lit "bob"); ClickJoin; SendChat (lit "hi");
                       ClickReady; DrawStroke Sample.stroke]
                    {| app := initial; sent := []; canvasRef := None |})) = None.
Proof.
  apply (no_socket_nothing_sent
           [TypeUsername (lit "bob"); ClickJoin; SendChat (lit "hi");
            ClickReady; DrawStroke Sample.stroke]
           {| app := initial; sent := []; canvasRef := None |});
    reflexivity.
Defined.

(** ** Receiving *)

(** X5.  Handling server events never emits anything and never touches
    the socket hook, the typed username or the chosen colour and width,
    whatever the events and however many. *)
Theorem receiving_is_passive (es : list ServerEvent) (w : World) :
  sent (receive es w) = sent w
  /\ socket (app (receive es w)) = socket (app w)
  /\ username (app (receive es w)) = username (app w)
  /\ drawColor (app (receive es w)) = drawColor (app w)
  /\ lineWidth (app (receive es w)) = lineWidth (app w).
Proof.
  revert w; induction es as [|e es IH]; intros w.
  - repeat split.
  - rewrite receive_cons.
    destruct (IH (socket_on e w)) as (I1 & I2 & I3 & I4 & I5).
    unfold socket_on in *.
    destruct (on_frame initial e w) as (F1 & F2 & F3 & F4 & _).
    rewrite I1, I2, I3, I4, I5, F1, F2, F3, F4, socket_on_sent.
    repeat split.
Qed.

(** ** The drawing tools on screen *)

(** X6.  The drawing tools, with the clear button, are on screen exactly
    in the Game phase of the drawer, showing the chosen colour and width;
    and whenever they are on screen, pressing the clear button emits one
    [clearCanvas] and calls [clear] on the mounted canvas. *)
Theorem clear_button_is_shown_to_the_drawer_and_works (w : World) :
  (tools_on_screen (renderContent (app w)) <> None
   <-> gameState (app w) = Game /\ isDrawer (app w) = true)
  /\ (tools_on_screen (renderContent (app w)) <> None ->
      tools_on_screen (renderContent (app w))
        = Some {| tools_color := drawColor (app w);
                  tools_width := lineWidth (app w) |}
      /\ sent (act handleClearCanvas w) = sent w ++ [ClearCanvas]
      /\ canvasRef (act handleClearCanvas w)
         = option_map (fun calls => calls ++ [CanvasClear]) (canvasRef w)
      /\ app (act handleClearCanvas w) = app w).
Proof.
  assert (A : tools_on_screen (renderContent (app w)) <> None
              <-> gameState (app w) = Game /\ isDrawer (app w) = true).
  { unfold renderContent.
    destruct (gameState (app w)); simpl;
      try (split; [congruence | intros [H _]; discriminate H]).
    destruct (isDrawer (app w)); split; try congruence.
    - now split.
    - intros [_ H]. discriminate H. }
  split; [exact A|]. intros H. apply A in H as [G D].
  unfold act, handleClearCanvas, renderContent. rewrite G, D. simpl.
  destruct (isDrawer_has_socket _ D) as [s S]. rewrite S.
  unfold seq, canvas; simpl.
  destruct (canvasRef w) as [calls|] eqn:C; simpl; rewrite ?C; repeat split.
Qed.

Lemma clear_button_is_shown_to_the_drawer_and_works_witness :
  sent (act handleClearCanvas
          (Sample.client (lit "A") Game (Some (lit "A")) (Some [])))
  = [ClearCanvas].
Proof.
  refine (proj1 (proj2 (proj2 (clear_button_is_shown_to_the_drawer_and_works
    (Sample.client (lit "A") Game (Some (lit "A")) (Some []))) _))).
  discriminate.
Defined.

(** ** The player list *)

Lemma PlayerList_no_pencil (players : list Player.t) (d : jsstring) :
  ~ In d (map Player.id players) ->
  filter row_pencil (PlayerList players (Some d)) = [].
Proof.
  induction players as [|p ps IH]; intros H; simpl; [reflexivity|].
  destruct (str_eqb (Player.id p) d) eqn:E.
  - apply str_eqb_eq in E. exfalso. apply H. now left.
  - apply IH. intros N. apply H. now right.
Qed.

(** X7.  [PlayerList] shows the players in the order of the list, one row
    each with name and score.  Without a drawer no row has the pencil; a
    row has the pencil only if its player's id is the drawer id; and when
    the ids of the list are distinct, exactly one row has it if the drawer
    is in the list and none otherwise.  The Game screen shows this list for
    the current players and drawer. *)
Theorem PlayerList_pencil_marks_the_drawer
    (ps : list Player.t) (drawerId : option jsstring) :
  map row_username (PlayerList ps drawerId) = map Player.username ps
  /\ map row_score (PlayerList ps drawerId) = map Player.score ps
  /\ (drawerId = None -> filter row_pencil (PlayerList ps drawerId) = [])
  /\ map row_pencil (PlayerList ps drawerId)
     = map (fun p => match drawerId with
                     | Some d => if list_eq_dec N.eq_dec (Player.id p) d
                                 then true else false
                     | None => false
                     end) ps
  /\ (forall d, drawerId = Some d -> NoDup (map Player.id ps) ->
        List.length (filter row_pencil (PlayerList ps drawerId))
        = if in_dec (list_eq_dec N.eq_dec) d (map Player.id ps)
          then 1%nat else 0%nat)
  /\ (forall r : AppState, gameState r = Game ->
        rows_on_screen (renderContent r)
        = PlayerList (players r) (currentDrawerId r)).
Proof.
  split; [|split; [|split; [|split; [|split]]]].
  - unfold PlayerList. rewrite map_map. reflexivity.
  - unfold PlayerList. rewrite map_map. reflexivity.
  - intros ->. induction ps as [|p ps IH]; simpl; [reflexivity | exact IH].
  - unfold PlayerList. rewrite map_map. apply map_ext. intros p. simpl.
    destruct drawerId as [d|]; simpl; [|reflexivity].
    destruct (list_eq_dec N.eq_dec (Player.id p) d) as [E|E].
    + now apply str_eqb_eq.
    + destruct (str_eqb (Player.id p) d) eqn:B; [|reflexivity].
      apply str_eqb_eq in B. contradiction.
  - intros d -> ND. induction ps as [|p ps IH]; simpl; [reflexivity|].
    inversion ND as [|? ? Hp Hps]; subst.
    destruct (str_eqb (Player.id p) d) eqn:B.
    + apply str_eqb_eq in B. subst d. simpl.
      rewrite PlayerList_no_pencil by exact Hp.
      destruct (list_eq_dec N.eq_dec (Player.id p) (Player.id p)); [|contradiction].
      reflexivity.
    + rewrite (IH Hps).
      destruct (list_eq_dec N.eq_dec (Player.id p) d) as [E|E].
      * rewrite <- str_eqb_eq in E. congruence.
      * destruct (in_dec (list_eq_dec N.eq_dec) d (map Player.id ps));
          reflexivity.
  - intros r G. unfold renderContent. rewrite G. reflexivity.
Qed.

Lemma PlayerList_pencil_marks_the_drawer_witness :
  List.length (filter row_pencil
                 (PlayerList [Sample.alice; Sample.bob] (Some (lit "B"))))
  = 1%nat.
Proof.
  refine (proj1 (proj2 (proj2 (proj2 (proj2
    (PlayerList_pencil_marks_the_drawer [Sample.alice; Sample.bob]
       (Some (lit "B")))))))
    (lit "B") eq_refl _).
  repeat constructor; simpl; intuition discriminate.
Defined.

(** ** The score on screen *)

Lemma find_none_iff {A : Type} (f : A -> bool) (xs : list A) :
  find f xs = None <-> Forall (fun a => f a = false) xs.
Proof.
  induction xs as [|a xs IH]; simpl.
  - split; [constructor | reflexivity].
  - destruct (f a) eqn:E; split; intros H.
    + discriminate H.
    + inversion H; subst. congruence.
    + constructor; [exact E | now apply IH].
    + inversion H; subst. now apply IH.
Qed.

Lemma find_first {A : Type} (f : A -> bool) (before : list A) (a : A)
    (after : list A) :
  Forall (fun b => f b = false) before -> f a = true ->
  find f (before ++ a :: after) = Some a.
Proof.
  induction before as [|b before IH]; intros H Ha; simpl.
  - now rewrite Ha.
  - inversion H as [|? ? Hb Hrest]; subst. rewrite Hb. now apply IH.
Qed.

(** X8.  The score shown is the score of the first player of the list whose
    id is the socket's id.  When no player has that id (or the socket has no
    id yet) the Game screen shows 0 and the round-end screen shows no
    number. *)
Theorem score_on_screen_is_own_score (r : AppState) :
  (own_score r = None <-> Forall (other_than (socket_id r)) (players r))
  /\ (forall before p after,
        players r = before ++ p :: after ->
        Forall (other_than (socket_id r)) before ->
        strict_eq (VString (Player.id p)) (socket_id r) = true ->
        own_score r = Some (Player.score p))
  /\ (socket_id r = VUndefined -> own_score r = None)
  /\ (gameState r = Game ->
        score_on_screen (renderContent r)
        = Some (match own_score r with Some n => n | None => 0 end))
  /\ (gameState r = RoundEnd -> score_on_screen (renderContent r) = own_score r).
Proof.
  assert (A : own_score r = None <-> Forall (other_than (socket_id r)) (players r)).
  { pose proof (find_none_iff
        (fun p => strict_eq (VString (Player.id p)) (socket_id r))
        (players r)) as F.
    unfold own_score, other_than. rewrite <- F.
    destruct (find _ (players r)); split; congruence. }
  split; [exact A|]. split; [|split; [|split]].
  - intros before p after E F M. unfold own_score. rewrite E.
    now rewrite (find_first _ before p after F M).
  - intros U. apply A. rewrite U. apply Forall_forall. intros p _.
    reflexivity.
  - intros G. unfold renderContent. rewrite G. simpl. f_equal.
    destruct (own_score r) as [n|]; simpl; [|reflexivity].
    destruct (Z.eqb_spec n 0); congruence.
  - intros G. unfold renderContent. rewrite G. reflexivity.
Qed.

Lemma score_on_screen_is_own_score_witness :
  score_on_screen
    (renderContent (app (Sample.client (lit "C") Game (Some (lit "B")) None)))
  = Some 0.
Proof.
  exact (proj1 (proj2 (proj2 (proj2 (score_on_screen_is_own_score
    (app (Sample.client (lit "C") Game (Some (lit "B")) None))))))
    eq_refl).
Defined.

(** ** The looks of the chat *)

(** X9.  In the chat column, a message flagged as system message is shown
    as a system bubble even if it is also flagged as correct guess; the
    sender's name is shown exactly on the ordinary bubbles, which are exactly
    the ones not centred; the text is always the message's.  The message
    list left by a [newRound] event is shown as one centred system bubble
    without a name. *)
Theorem ChatArea_bubbles (msg : ChatMessage.t) :
  (flag (ChatMessage.isSystemMessage msg) = true ->
     line_bubble (ChatArea_line msg) = SystemBubble)
  /\ (line_bubble (ChatArea_line msg) = CorrectGuessBubble <->
      flag (ChatMessage.isSystemMessage msg) = false
      /\ flag (ChatMessage.isCorrectGuess msg) = true)
  /\ (line_name (ChatArea_line msg) = Some (ChatMessage.username msg) <->
      line_bubble (ChatArea_line msg) = OrdinaryBubble)
  /\ (line_name (ChatArea_line msg) = None <->
      line_centered (ChatArea_line msg) = true)
  /\ line_text (ChatArea_line msg) = ChatMessage.message msg
  /\ (forall (r : AppState) (p : NewRound) (w : World),
        ChatArea_lines (messages (app (on r (EvNewRound p) w)))
        = [ {| line_centered := true;
               line_bubble := SystemBubble;
               line_name := None;
               line_text :=
                 ChatMessage.message (opening_message r (nr_drawerId p)) |} ]).
Proof.
  split; [|split; [|split; [|split; [|split]]]].
  6: { intros r p w. rewrite on_newRound_app. reflexivity. }
  all: unfold ChatArea_line; simpl;
    destruct (flag (ChatMessage.isSystemMessage msg)),
             (flag (ChatMessage.isCorrectGuess msg)); simpl;
    repeat split; try congruence; intros [? ?]; congruence.
Qed.

Lemma ChatArea_bubbles_witness :
  line_bubble (ChatArea_line
    (ChatMessage.mk (lit "bob") (lit "guessed it") (Some true) (Some true)))
  = SystemBubble.
Proof.
  exact (proj1 (ChatArea_bubbles
    (ChatMessage.mk (lit "bob") (lit "guessed it") (Some true) (Some true)))
    eq_refl).
Defined.

(** ** The selection in the drawing tools *)

Lemma perform_keeps_offered (a : Action) (w : World) :
  picks_offered a ->
  In (drawColor (app w)) colors -> In (lineWidth (app w)) widths ->
  In (drawColor (app (perform a w))) colors
  /\ In (lineWidth (app (perform a w))) widths.
Proof.
  intros P C W. destruct (perform_frame a w) as (_ & F1 & F2 & _).
  rewrite F1, F2. destruct a; simpl in P; now split.
Qed.

(** X10.  The colour and the width the component starts with are among
    the ones [DrawingTools] offers, and they stay so as long as the user
    picks with the buttons offered; then exactly one colour button and
    exactly one width button carry the selection ring, whatever else
    happens in between. *)
Theorem tools_have_one_selection (l : list Action) (w : World) :
  In (drawColor (app w)) colors ->
  In (lineWidth (app w)) widths ->
  Forall picks_offered l ->
  In (drawColor (app (run l w))) colors
  /\ In (lineWidth (app (run l w))) widths
  /\ rings_of_colors
       (fst (DrawingTools (drawColor (app (run l w)))
               (lineWidth (app (run l w))))) = 1%nat
  /\ rings_of_widths
       (snd (DrawingTools (drawColor (app (run l w)))
               (lineWidth (app (run l w))))) = 1%nat
  /\ In (drawColor initial) colors
  /\ In (lineWidth initial) widths.
Proof.
  intros C W P.
  assert (I : In (drawColor (app (run l w))) colors
              /\ In (lineWidth (app (run l w))) widths).
  { revert w C W. induction P as [|a l Pa Pl IH]; intros w C W; simpl.
    - now split.
    - destruct (perform_keeps_offered a w Pa C W) as [C' W'].
      now apply IH. }
  destruct I as [C' W']. split; [exact C'|]. split; [exact W'|].
  split; [|split; [|split]].
  - generalize dependent (drawColor (app (run l w))). intros c Hc.
    unfold colors in Hc. simpl in Hc.
    repeat (destruct Hc as [<-|Hc]; [reflexivity|]). contradiction.
  - generalize dependent (lineWidth (app (run l w))). intros n Hn.
    unfold widths in Hn. simpl in Hn.
    repeat (destruct Hn as [<-|Hn]; [reflexivity|]). contradiction.
  - simpl. now left.
  - simpl. right. now left.
Qed.

Lemma tools_have_one_selection_witness :
  rings_of_colors
    (fst (DrawingTools
            (drawColor (app (run [PickColor (lit "#22c55e"); PickWidth 14]
                               (Sample.client (lit "A") Game (Some (lit "A"))
                                  (Some [])))))
            (lineWidth (app (run [PickColor (lit "#22c55e"); PickWidth 14]
                               (Sample.client (lit "A") Game (Some (lit "A"))
                                  (Some []))))))) = 1%nat.
Proof.
  refine (proj1 (proj2 (proj2 (tools_have_one_selection
    [PickColor (lit "#22c55e"); PickWidth 14]
    (Sample.client (lit "A") Game (Some (lit "A")) (Some [])) _ _ _)))).
  - simpl. now left.
  - simpl. right. now left.
  - repeat constructor; simpl; tauto.
Defined.

(** ** The word between rounds *)

(** X11.  The stored word and drawer id are those of the last [newRound]
    received, and the ones the run started with if there was none: nothing
    else writes them, not [roundEnd], not [gameState], no user action.  So
    whenever the phase is Game the screen shows the word of the last
    [newRound], also when the phase was set by a [gameState] event after
    the round had ended. *)
Theorem word_is_that_of_the_last_newRound (l : list Action) (w : World) :
  currentWord (app (run l w))
    = match last_newRound l with
      | Some p => nr_word p
      | None => currentWord (app w)
      end
  /\ currentDrawerId (app (run l w))
    = match last_newRound l with
      | Some p => nr_drawerId p
      | None => currentDrawerId (app w)
      end
  /\ (gameState (app (run l w)) = Game ->
      word_on_screen (renderContent (app (run l w)))
      = Some match last_newRound l with
             | Some p => nr_word p
             | None => currentWord (app w)
             end).
Proof.
  assert (A : currentWord (app (run l w))
              = match last_newRound l with
                | Some p => nr_word p
                | None => currentWord (app w)
                end
           /\ currentDrawerId (app (run l w))
              = match last_newRound l with
                | Some p => nr_drawerId p
                | None => currentDrawerId (app w)
                end).
  { revert w; induction l as [|a l IH]; intros w; simpl.
    - now split.
    - destruct (IH (perform a w)) as [I1 I2]. rewrite I1, I2.
      destruct (last_newRound l) as [p|]; [now split|].
      destruct (perform_frame a w) as (_ & _ & _ & F1 & F2).
      rewrite F1, F2.
      destruct a as [ |e| | | | | | | | ]; try (now split).
      destruct e; now split. }
  destruct A as [A1 A2]. split; [exact A1|]. split; [exact A2|].
  intros G. unfold renderContent. rewrite G. simpl. now rewrite A1.
Qed.

Lemma word_is_that_of_the_last_newRound_witness :
  word_on_screen
    (renderContent
       (app (run [Receive (EvNewRound {| nr_drawerId := Some (lit "A");
                                         nr_word := lit "apple";
                                         nr_time := 60 |});
                  Receive (EvRoundEnd {| winner := None; word := lit "apple" |});
                  ClickReady;
                  Receive (EvGameState Game)]
               (Sample.client (lit "A") Waiting None None))))
  = Some (lit "apple").
Proof.
  exact (proj2 (proj2 (word_is_that_of_the_last_newRound
    [Receive (EvNewRound {| nr_drawerId := Some (lit "A");
                            nr_word := lit "apple"; nr_time := 60 |});
     Receive (EvRoundEnd {| winner := None; word := lit "apple" |});
     ClickReady;
     Receive (EvGameState Game)]
    (Sample.client (lit "A") Waiting None None))) eq_refl).
Defined.

(** ** The round-end screen without a result *)

(** X12.  On the round-end screen the heading names the winner only when a
    result with a winner is stored; without a winner, or without any stored
    result, it is the time-is-up heading, and without a stored result no
    word is shown.  The ready button forgets the result: if the server puts
    the client back to RoundEnd after the button was pressed, the screen
    shows the time-is-up heading and no word, whoever had won. *)
Theorem round_end_screen_without_result (r : AppState) :
  gameState r = RoundEnd ->
  (roundResult r = None ->
     renderContent r = RoundEndView None None (own_score r))
  /\ (forall res, roundResult r = Some res -> winner res = None ->
        renderContent r = RoundEndView None (Some (word res)) (own_score r))
  /\ (forall res p, roundResult r = Some res -> winner res = Some p ->
        renderContent r
        = RoundEndView (Some (Player.username p)) (Some (word res))
            (own_score r))
  /\ (forall (res : RoundResult) (w : World),
        renderContent
          (app (socket_on (EvGameState RoundEnd)
                  (act handleReadyForNext (socket_on (EvRoundEnd res) w))))
        = RoundEndView None None (own_score (app w))).
Proof.
  intros G. unfold renderContent. rewrite G. repeat split.
  - intros ->. reflexivity.
  - intros res -> ->. reflexivity.
  - intros res p -> ->. reflexivity.
  - intros res w. unfold act, handleReadyForNext, seq; simpl.
    destruct (socket (app w)); reflexivity.
Qed.

Lemma round_end_screen_without_result_witness :
  renderContent
    (app (socket_on (EvGameState RoundEnd)
            (act handleReadyForNext
               (socket_on
                  (EvRoundEnd {| winner := Some Sample.bob;
                                 word := lit "apple" |})
                  (Sample.client (lit "A") Game (Some (lit "B")) (Some []))))))
  = RoundEndView None None (Some 0).
Proof.
  exact (proj2 (proj2 (proj2 (round_end_screen_without_result
    (app (Sample.client (lit "A") RoundEnd None None)) eq_refl)))
    {| winner := Some Sample.bob; word := lit "apple" |}
    (Sample.client (lit "A") Game (Some (lit "B")) (Some []))).
Defined.

(** ** The chat of a round *)

(** X13.  From a [newRound] on, until the next one, the message list is
    the round's opening message followed by the chat entries received since,
    in order of arrival, whatever other events come in between and whatever
    the list held before. *)
Theorem chat_column_within_a_round
    (p : NewRound) (es : list ServerEvent) (w : World) :
  existsb is_newRound es = false ->
  messages (app (receive (EvNewRound p :: es) w))
  = opening_message initial (nr_drawerId p) :: chats es.
Proof.
  intros H. rewrite receive_cons, receive_messages by exact H.
  unfold socket_on. now rewrite on_newRound_app.
Qed.

Lemma chat_column_within_a_round_witness :
  messages
    (app (receive
            [EvNewRound {| nr_drawerId := Some (lit "B"); nr_word := [];
                           nr_time := 60 |};
             EvChatMessage (ChatMessage.mk (lit "bob") (lit "hi") None None);
             EvTimer 59;
             EvChatMessage (ChatMessage.mk (lit "alice") (lit "cat") None None)]
            (Sample.client (lit "A") Waiting None None)))
  = [opening_message initial (Some (lit "B"));
     ChatMessage.mk (lit "bob") (lit "hi") None None;
     ChatMessage.mk (lit "alice") (lit "cat") None None].
Proof.
  exact (chat_column_within_a_round
    {| nr_drawerId := Some (lit "B"); nr_word := []; nr_time := 60 |}
    [EvChatMessage (ChatMessage.mk (lit "bob") (lit "hi") None None);
     EvTimer 59;
     EvChatMessage (ChatMessage.mk (lit "alice") (lit "cat") None None)]
    (Sample.client (lit "A") Waiting None None) eq_refl).
Defined.

(** ** Strokes from the server *)

Lemma on_draws (r : AppState) (e : ServerEvent) (w : World)
    (calls : list CanvasCall) :
  canvasRef w = Some calls -> keeps_drawing e = true ->
  canvasRef (on r e w)
  = Some (calls ++ map CanvasDrawFromServer (drawings [e])).
Proof.
  intros C H. destruct e; try discriminate H; simpl; unfold seq; simpl;
    rewrite ?app_nil_r; try exact C.
  now apply canvas_mounted.
Qed.

Lemma on_keeps_phase (r : AppState) (e : ServerEvent) (w : World) :
  keeps_drawing e = true -> gameState (app (on r e w)) = gameState (app w).
Proof.
  intros H. destruct e; try discriminate H; simpl; rewrite ?canvas_app;
    reflexivity.
Qed.

(** X14.  Take events whose handlers neither set the phase nor clear the
    canvas (connect, updatePlayers, chatMessage, timer, drawing).  They
    leave the phase as it is.  In the Game phase, with the Canvas mounted,
    the strokes among them are drawn one by one in order of arrival and
    nothing else is called on the canvas.  Outside the Game phase, where no
    Canvas is mounted, the strokes among them reach nothing. *)
Theorem strokes_reach_the_canvas_in_order (es : list ServerEvent) (w : World) :
  forallb keeps_drawing es = true ->
  gameState (app (receive es w)) = gameState (app w)
  /\ (forall calls,
        gameState (app w) = Game -> canvasRef w = Some calls ->
        canvasRef (receive es w)
        = Some (calls ++ map CanvasDrawFromServer (drawings es)))
  /\ (gameState (app w) <> Game -> canvasRef w = None ->
      canvasRef (receive es w) = None).
Proof.
  intros H. split; [|split].
  - revert w; induction es as [|e es IH]; intros w; [reflexivity|].
    simpl in H. apply andb_true_iff in H as [He Hes].
    rewrite receive_cons, (IH Hes). unfold socket_on.
    now apply on_keeps_phase.
  - intros calls _. revert w calls; induction es as [|e es IH]; intros w calls C.
    + simpl. now rewrite app_nil_r.
    + simpl in H. apply andb_true_iff in H as [He Hes].
      rewrite receive_cons.
      rewrite (IH Hes (socket_on e w)
                  (calls ++ map CanvasDrawFromServer (drawings [e])));
        [|now apply on_draws].
      rewrite <- app_assoc, <- map_app. do 3 f_equal.
      destruct e; reflexivity.
  - intros _. clear H. revert w; induction es as [|e es IH]; intros w C;
      [exact C|].
    rewrite receive_cons. apply IH. now apply on_no_canvas.
Qed.

Lemma strokes_reach_the_canvas_in_order_witness :
  canvasRef
    (receive [EvDrawing Sample.stroke; EvTimer 12; EvDrawing Sample.stroke]
       (Sample.client (lit "A") Game (Some (lit "B")) (Some [CanvasClear])))
  = Some [CanvasClear; CanvasDrawFromServer Sample.stroke;
          CanvasDrawFromServer Sample.stroke].
Proof.
  exact (proj1 (proj2 (strokes_reach_the_canvas_in_order
    [EvDrawing Sample.stroke; EvTimer 12; EvDrawing Sample.stroke]
    (Sample.client (lit "A") Game (Some (lit "B")) (Some [CanvasClear]))
    eq_refl))
    [CanvasClear] eq_refl eq_refl).
Defined.

(** ** A socket without an id *)

(** X15.  A client whose socket is missing or has no id yet is never the
    drawer, not even when no drawer is set ([undefined] is not [null]): it
    emits no stroke, its clear action does nothing and it is shown no
    drawing tools. *)
Theorem client_without_socket_id_is_not_the_drawer (r : AppState) :
  (socket_id r = VUndefined <->
   socket r = None \/ exists s, socket r = Some s /\ id s = None)
  /\ (socket_id r = VUndefined ->
      isDrawer r = false
      /\ (forall d w, handleDraw r d w = w)
      /\ (forall w, handleClearCanvas r w = w)
      /\ tools_on_screen (renderContent r) = None).
Proof.
  split.
  - unfold socket_id. destruct (socket r) as [s|]; split.
    + destruct (id s) eqn:E; [discriminate|]. intros _. right. now exists s.
    + intros [H|(s' & H & E)]; [discriminate|]. inversion H; subst.
      now rewrite E.
    + intros _. now left.
    + reflexivity.
  - intros U.
    assert (D : isDrawer r = false).
    { unfold isDrawer. rewrite U. apply strict_eq_undefined_nullable. }
    split; [exact D|]. split; [|split].
    + intros d w. rewrite handleDraw_eq. now rewrite D.
    + intros w. unfold handleClearCanvas. now rewrite D.
    + unfold renderContent. destruct (gameState r); simpl; try reflexivity.
      now rewrite D.
Qed.

Lemma client_without_socket_id_is_not_the_drawer_witness :
  isDrawer initial = false.
Proof.
  exact (proj1 (proj2 (client_without_socket_id_is_not_the_drawer initial)
                  eq_refl)).
Defined.

(** ** The name in the opening message *)

(** X16.  The [newRound] handler is registered once, by the mount effect,
    and looks the drawer up in the player list of the render that ran the
    effect, which is empty.  So in the mounted component the opening message
    reads "undefined rəsm çəkir..." for every payload, whatever rosters were
    received before; the same handler built by a render whose list holds
    the drawer would put the name of the first player with the drawer's
    id. *)
Theorem opening_message_never_names_the_drawer
    (l : list Action) (p : NewRound) (w : World) :
  messages (app (socket_on (EvNewRound p) (run l w)))
  = [ChatMessage.mk (lit "System") (lit "undefined" ++ is_drawing_suffix)
       (Some true) None]
  /\ (forall (r : AppState) before q after d,
        players r = before ++ q :: after ->
        Forall (other_than (VString d)) before ->
        Player.id q = d ->
        nr_drawerId p = Some d ->
        messages (app (on r (EvNewRound p) w))
        = [ChatMessage.mk (lit "System")
             (Player.username q ++ is_drawing_suffix) (Some true) None]).
Proof.
  split.
  - unfold socket_on. rewrite on_newRound_app. reflexivity.
  - intros r before q after d E F Q D. rewrite on_newRound_app.
    cbn [messages]. unfold username_of. rewrite E, D. cbn [of_nullable].
    rewrite (find_first
               (fun p => strict_eq (VString (Player.id p)) (VString d))
               before q after F); [reflexivity|].
    simpl. rewrite Q. apply str_eqb_refl.
Qed.

Lemma opening_message_never_names_the_drawer_witness :
  messages
    (app (socket_on
            (EvNewRound {| nr_drawerId := Some (lit "B"); nr_word := [];
                           nr_time := 60 |})
            (run [Receive (EvUpdatePlayers [Sample.alice; Sample.bob])]
               (Sample.lobby (lit "alice")))))
  = [ChatMessage.mk (lit "System") (lit "undefined" ++ is_drawing_suffix)
       (Some true) None].
Proof.
  exact (proj1 (opening_message_never_names_the_drawer
    [Receive (EvUpdatePlayers [Sample.alice; Sample.bob])]
    {| nr_drawerId := Some (lit "B"); nr_word := []; nr_time := 60 |}
    (Sample.lobby (lit "alice")))).
Defined.
